(** * template_tree: the reconciliation plugin, embedded and verified

    A shallow embedding of [src/template_tree.py] (the Ansible action plugin
    [ActionModule]) together with the parts of Python's [posixpath] and
    [pathlib.PurePosixPath] that the plugin calls.  Pure helpers are Rocq
    functions over [string]; the plugin's effects (module executions on the
    destination host) are threaded through a small state-and-exception
    monad whose state records the host and the trace of executed
    operations. *)

From Stdlib Require Import String Ascii List Bool Arith Lia.
From stdpp Require Import base option list strings gmap.

Set Warnings "-register-all".

(* stdpp seals [String.append] against [simpl]; the proofs below compute
   with it. *)
#[local] Arguments String.append !s1 s2 : simpl nomatch.

Local Open Scope string_scope.
Local Open Scope list_scope.

(** ** Strings as Python uses them *)

Module Str.

(** [s.startswith(pre)] *)
Fixpoint startswith (s pre : string) : bool :=
  match pre, s with
  | EmptyString, _ => true
  | String a pre', String b s' => Ascii.eqb b a && startswith s' pre'
  | String _ _, EmptyString => false
  end.

(** [s.endswith(suf)]: [s] is [suf], or the tail of [s] ends with [suf]. *)
Fixpoint endswith (s suf : string) : bool :=
  String.eqb s suf
  || match s with
     | EmptyString => false
     | String _ r => endswith r suf
     end.

(** [s[:-n]] for a string of at least [n] characters (shorter: empty). *)
Definition drop_end (n : nat) (s : string) : string :=
  String.substring 0 (String.length s - n) s.

(** [c * n] for a one-character string. *)
Fixpoint replicate_char (n : nat) (c : ascii) : string :=
  match n with
  | O => EmptyString
  | S k => String c (replicate_char k c)
  end.

(** [s.split("/")]: never empty; an empty string gives one empty field. *)
Fixpoint split_sep (s : string) : list string :=
  match s with
  | EmptyString => [EmptyString]
  | String c r =>
      if Ascii.eqb c "/" then EmptyString :: split_sep r
      else match split_sep r with
           | h :: t => String c h :: t
           | [] => [String c EmptyString]
           end
  end.

(** ["/".join(cs)] *)
Definition join_sep (cs : list string) : string := String.concat "/" cs.

(** number of leading ["/"] characters *)
Fixpoint leading_seps (s : string) : nat :=
  match s with
  | String c r => if Ascii.eqb c "/" then S (leading_seps r) else 0
  | EmptyString => 0
  end.

(** [s.rstrip("/")] *)
Fixpoint rstrip_sep (s : string) : string :=
  match s with
  | EmptyString => EmptyString
  | String c r =>
      match rstrip_sep r with
      | EmptyString => if Ascii.eqb c "/" then EmptyString else String c EmptyString
      | r' => String c r'
      end
  end.

End Str.

(** ** [posixpath] *)

Module posixpath.

Definition sep : string := "/".

(** [posixpath.basename]: what follows the last separator. *)
Definition basename (p : string) : string :=
  List.last (Str.split_sep p) EmptyString.

(** [posixpath.dirname]: [head = p[:rfind("/")+1]], stripped of trailing
    separators unless it consists of separators only. *)
Definition dirname (p : string) : string :=
  let head := Str.drop_end (String.length (basename p)) p in
  if negb (String.eqb head EmptyString)
     && negb (String.eqb head (Str.replicate_char (String.length head) "/"))
  then Str.rstrip_sep head
  else head.

(** [posixpath.join(a, b)] *)
Definition join (a b : string) : string :=
  if Str.startswith b sep then b
  else if String.eqb a EmptyString || Str.endswith a sep then a +:+ b
  else a +:+ sep +:+ b.

(** POSIX keeps exactly two leading slashes apart; three or more are one. *)
Definition initial_slashes (p : string) : nat :=
  match Str.leading_seps p with
  | 0 => 0
  | 2 => 2
  | _ => 1
  end.

(** One turn of the loop of [normpath] over the components.  [new_comps]
    is the Python list: appended to at its end, popped at its end. *)
Definition norm_step (init : nat) (new_comps : list string) (comp : string)
  : list string :=
  if String.eqb comp "" || String.eqb comp "." then new_comps
  else if negb (String.eqb comp "..")
          || (Nat.eqb init 0 && match new_comps with [] => true | _ => false end)
          || (match new_comps with
              | [] => false
              | _ => String.eqb (List.last new_comps "") ".."
              end)
       then new_comps ++ [comp]
       else match new_comps with
            | [] => new_comps
            | _ => List.removelast new_comps
            end.

Definition norm_comps (init : nat) (comps : list string) : list string :=
  List.fold_left (norm_step init) comps [].

(** The tail of [normpath]: join, put the slashes back, [path or "."]. *)
Definition render (init : nat) (comps : list string) : string :=
  let path := Str.join_sep comps in
  let path := match init with
              | 0 => path
              | _ => Str.replicate_char init "/" +:+ path
              end in
  if String.eqb path "" then "." else path.

(** [posixpath.normpath] *)
Definition normpath (p : string) : string :=
  if String.eqb p "" then "."
  else render (initial_slashes p)
              (norm_comps (initial_slashes p) (Str.split_sep p)).

End posixpath.

(** ** [pathlib.PurePosixPath] *)

(** A parsed path: its root ([""], ["/"] or ["//"]) and the components
    after it, with empty and ["."] components dropped and [".."] kept. *)
Record PurePath : Type := mkPurePath {
  pp_root : string;
  pp_parts : list string
}.

Module pathlib.

Definition keep_part (x : string) : bool :=
  negb (String.eqb x "") && negb (String.eqb x ".").

(** [PurePath(s)] *)
Definition parse (s : string) : PurePath :=
  {| pp_root := Str.replicate_char (posixpath.initial_slashes s) "/";
     pp_parts := List.filter keep_part (Str.split_sep s) |}.

(** [str(p)] *)
Definition to_str (p : PurePath) : string :=
  let s := pp_root p +:+ Str.join_sep (pp_parts p) in
  if String.eqb s "" then "." else s.

(** [p == q] *)
Definition eqb (p q : PurePath) : bool :=
  String.eqb (pp_root p) (pp_root q)
  && bool_decide (pp_parts p = pp_parts q).

(** [p.is_absolute()] *)
Definition is_absolute (p : PurePath) : bool :=
  negb (String.eqb (pp_root p) "").

(** [xs] starts with [pre]; returns what follows. *)
Fixpoint strip_prefix (pre xs : list string) : option (list string) :=
  match pre, xs with
  | [], _ => Some xs
  | a :: pre', b :: xs' =>
      if String.eqb a b then strip_prefix pre' xs' else None
  | _ :: _, [] => None
  end.

(** [p.relative_to(other)]: [None] stands for Python's [ValueError]. *)
Definition relative_to (p other : PurePath) : option PurePath :=
  if String.eqb (pp_root p) (pp_root other) then
    match strip_prefix (pp_parts other) (pp_parts p) with
    | Some rest => Some {| pp_root := ""; pp_parts := rest |}
    | None => None
    end
  else None.

(** [p.is_relative_to(other)] *)
Definition is_relative_to (p other : PurePath) : bool :=
  match relative_to p other with
  | Some _ => true
  | None => false
  end.

End pathlib.

(** ** Python values, exceptions and results *)

(** The values a task argument can hold, as far as the plugin tells them
    apart. *)
Inductive pyval : Type :=
| PStr (s : string)
| PBool (b : bool)
| PInt (n : Z)
| PNone
| PList (l : list pyval).

(** Python truthiness, as [if exclusive:] applies it. *)
Definition truthy (v : pyval) : bool :=
  match v with
  | PStr s => negb (String.eqb s "")
  | PBool b => b
  | PInt n => negb (Z.eqb n 0)
  | PNone => false
  | PList l => match l with [] => false | _ => true end
  end.

(** The exceptions that can leave the plugin.  [AnsibleError] is the one
    the plugin raises on purpose; the others are Python's own. *)
Inductive exn : Type :=
| AnsibleError (msg : string)
| AnsibleParserError
| ValueError
| KeyError (key : string)
| TypeError
| UnboundLocalError
| CollaboratorError (msg : string).

Inductive res (A : Type) : Type :=
| Ok (a : A)
| Raise (e : exn).
Arguments Ok {A} a.
Arguments Raise {A} e.

Definition res_bind {A B : Type} (r : res A) (k : A -> res B) : res B :=
  match r with
  | Ok a => k a
  | Raise e => Raise e
  end.

Notation "x <-? e ;; k" := (res_bind e (fun x => k))
  (at level 100, e at next level, right associativity).

(** A loop that builds a list and stops at the first exception. *)
Fixpoint res_map {A B : Type} (f : A -> res B) (l : list A) : res (list B) :=
  match l with
  | [] => Ok []
  | a :: l' =>
      b <-? f a ;;
      bs <-? res_map f l' ;;
      Ok (b :: bs)
  end.

(** ** The plugin's records *)

(** An entry of the merged source tree (the dict keys [root], [path],
    [state], [src]); only files and links carry [src]. *)
Record local_entry : Type := mkLocal {
  le_root : string;
  le_path : string;
  le_state : string;
  le_src : option string
}.

(** A planned entry, the dict built by [_get_entries_to_create]; [content]
    is added by [_set_file_contents]. *)
Record entry : Type := mkEntry {
  e_dest : string;
  e_state : string;
  e_owner : pyval;
  e_group : pyval;
  e_src : option string;
  e_template : bool;
  e_mode : pyval;
  e_content : option string
}.

(** An entry of the find module's [files] list. *)
Record found_entry : Type := mkFound {
  f_path : string;
  f_isdir : bool;
  f_isreg : bool
}.

(** The same after [_get_remote_entries] turned its path into a [PurePath]. *)
Record remote_entry : Type := mkRemote {
  re_path : PurePath;
  re_isdir : bool;
  re_isreg : bool
}.

Inductive diff_val : Type :=
| DiffOne (d : string)
| DiffMany (ds : list string).

(** The result dict of a module or action execution. *)
Record mresult : Type := mkResult {
  r_failed : bool;
  r_msg : option string;
  r_changed : option bool;
  r_state : option string;
  r_diff : option diff_val;
  r_files : option (list found_entry)
}.

(** The executions the plugin asks of the destination host. *)
Inductive module_call : Type :=
| Find (paths : string)
| FileAbsent (path : string)
| FileDirectory (path : string) (group owner mode : pyval)
| Copy (content dest : string) (group owner mode : pyval).

(** The task's result dict. *)
Record task_output : Type := mkOutput {
  o_failed : bool;
  o_msg : option string;
  o_changed : option bool;
  o_deleted_entries : list mresult;
  o_managed_directories : list mresult;
  o_managed_files : list mresult;
  o_diff : option (list string)
}.

#[global] Instance PurePath_eq_dec : EqDecision PurePath.
Proof. solve_decision. Defined.
#[global] Instance found_entry_eq_dec : EqDecision found_entry.
Proof. solve_decision. Defined.
#[global] Instance remote_entry_eq_dec : EqDecision remote_entry.
Proof. solve_decision. Defined.
#[global] Instance local_entry_eq_dec : EqDecision local_entry.
Proof. solve_decision. Defined.

#[global] Instance exn_eq_dec : EqDecision exn.
Proof. solve_decision. Defined.
#[global] Instance res_eq_dec {A : Type} `{EqDecision A} : EqDecision (res A).
Proof. solve_decision. Defined.

Definition REQUIRED_ARGS : list string := ["src"; "dest"].
Definition TEMPLATE_EXTENSION : string := ".j2".

(** ** The pure part of [ActionModule] *)

(** [PurePath(v)]: a string parses, anything else is a [TypeError]. *)
Definition PurePath_of (v : pyval) : res PurePath :=
  match v with
  | PStr s => Ok (pathlib.parse s)
  | _ => Raise TypeError
  end.

(** [isinstance(v, list)] *)
Definition is_list (v : pyval) : bool :=
  match v with
  | PList _ => true
  | _ => false
  end.

(** [if not isinstance(v, list): v = [v]] *)
Definition as_list (v : pyval) : list pyval :=
  match v with
  | PList l => l
  | v => [v]
  end.

(** [_parse_path_list]: a scalar is wrapped; the bare [except:] turns any
    failure of [PurePath] into an [AnsibleError]. *)
Definition _parse_path_list (args : gmap string pyval) (argname : string)
  : res (list PurePath) :=
  let paths := default (PList []) (args !! argname) in
  let is_list := is_list paths in
  let paths := as_list paths in
  match res_map PurePath_of paths with
  | Ok ps => Ok ps
  | Raise _ =>
      if is_list
      then Raise (AnsibleError ("Argument '" +:+ argname
                    +:+ "' contains one or more values of an invalid type"))
      else Raise (AnsibleError ("Argument '" +:+ argname
                    +:+ "' is of an invalid type"))
  end.

(** ** Notions used to state the properties *)

(** [p] is [q] or lies under it: the roots agree and the parts of [q]
    lead the parts of [p]. *)
Definition equal_or_under (p q : PurePath) : Prop :=
  pp_root p = pp_root q /\ exists rest, pp_parts p = pp_parts q ++ rest.

(** [p] is the first entry of [local_entries] whose destination, read as
    a path, is [a]. *)
Definition first_match (local_entries : list entry) (a : PurePath) (p : entry)
  : Prop :=
  exists before after,
    local_entries = before ++ p :: after /\
    pathlib.parse (e_dest p) = a /\
    forall q, In q before -> pathlib.parse (e_dest q) <> a.

(** Every remote path lies under the destination root, as the listing of
    that root gives them. *)
Definition listed_under (remote_path : string) (remote_entries : list remote_entry)
  : Prop :=
  forall r, In r remote_entries ->
    equal_or_under (re_path r) (pathlib.parse remote_path).

(** The execution [_create_entries] asks for an entry: the copy of a
    file's content, or the creation of a directory; none for an entry
    that is neither, or for a file without content. *)
Definition create_call (e : entry) : option module_call :=
  if String.eqb (e_state e) "file" then
    match e_content e with
    | Some content =>
        Some (Copy content (e_dest e) (e_group e) (e_owner e) (e_mode e))
    | None => None
    end
  else if String.eqb (e_state e) "directory" then
    Some (FileDirectory (e_dest e) (e_group e) (e_owner e) (e_mode e))
  else None.

Definition is_find (c : module_call) : Prop :=
  match c with Find _ => True | _ => False end.

Definition is_delete (c : module_call) : Prop :=
  match c with FileAbsent _ => True | _ => False end.

Definition is_create (c : module_call) : Prop :=
  match c with FileDirectory _ _ _ _ | Copy _ _ _ _ _ => True | _ => False end.

(** A source entry the mapper plans: a file or a directory. *)
Definition recognised (le : local_entry) : bool :=
  String.eqb (le_state le) "file" || String.eqb (le_state le) "directory".

(** A value [PurePath] does not accept. *)
Definition invalid_path_value (v : pyval) : Prop :=
  forall s, v <> PStr s.

(** [exclusive_ignore] is given and holds a value that is not a path. *)
Definition invalid_path_list (args : gmap string pyval) : Prop :=
  exists v, args !! "exclusive_ignore" = Some v /\
            Exists invalid_path_value (as_list v).

(** The two ways the plugin reports an invalid argument: the failed
    result of a missing required argument, and the [AnsibleError] of
    [_parse_path_list]. *)
Definition invalid_argument_failure (x : res task_output) : Prop :=
  (exists o arg, x = Ok o /\ o_failed o = true /\ In arg REQUIRED_ARGS /\
     o_msg o = Some ("missing required argument '" +:+ arg +:+ "'")) \/
  x = Raise (AnsibleError
       "Argument 'exclusive_ignore' contains one or more values of an invalid type") \/
  x = Raise (AnsibleError "Argument 'exclusive_ignore' is of an invalid type").

(** A path component that [normpath] keeps as it is: not empty, not
    ["."], not [".."]. *)
Definition plainb (c : string) : bool :=
  negb (String.eqb c "") && negb (String.eqb c ".") && negb (String.eqb c "..").

(** A normalised relative path: one or more plain components, joined by
    single separators. *)
Definition clean_rel (p : string) : bool :=
  forallb plainb (Str.split_sep p).

(** The string holds a separator. *)
Fixpoint has_sep (s : string) : bool :=
  match s with
  | EmptyString => false
  | String c r => Ascii.eqb c "/" || has_sep r
  end.

(** The relative path under which the mapper plans a source entry: its
    path, without the template suffix for a file that carries it. *)
Definition planned_relative_path (le : local_entry) : string :=
  if String.eqb (le_state le) "file"
     && Str.endswith (le_path le) TEMPLATE_EXTENSION
  then Str.drop_end (String.length TEMPLATE_EXTENSION) (le_path le)
  else le_path le.

(** ** Sample collaborators

    A role whose files live under [/role/files], and a destination host
    that only counts the executions it is asked for.  They instantiate
    the collaborators of the plugin in the examples further down. *)
Module Sample.

Definition path_dwim_relative (local_path : string) : string :=
  "/role/files/" +:+ local_path.

Definition path_exists (p : string) : bool := true.

(** [regular] lists the source paths that are regular files. *)
Definition S_ISREG (regular : list string) (p : string) : bool :=
  existsb (String.eqb p) regular.

(** A lookup that finds [found] under the source paths it is given. *)
Definition filetree_run (found : list local_entry) (terms : list string)
  : list local_entry := found.

Definition template_lookup (p : string) : res string :=
  Ok ("rendered " +:+ p).

Definition loader_get_file_contents (p : string) : res string :=
  Ok ("content of " +:+ p).

(** The result of a delete or create at [p]: a reported failure when [p]
    is [refused], success otherwise. *)
Definition result_at (refused state p : string) : mresult :=
  if String.eqb p refused
  then {| r_failed := true; r_msg := Some "permission denied";
          r_changed := Some false; r_state := None; r_diff := None;
          r_files := None |}
  else {| r_failed := false; r_msg := None; r_changed := Some true;
          r_state := Some state; r_diff := None; r_files := None |}.

(** The host: [listing] is what it holds; its state counts executions. *)
Definition execute (listing : list found_entry) (refused : string)
  (c : module_call) (w : nat) : res mresult * nat :=
  match c with
  | Find _ =>
      (Ok {| r_failed := false; r_msg := None; r_changed := Some false;
             r_state := None; r_diff := None; r_files := Some listing |}, S w)
  | FileAbsent p => (Ok (result_at refused "absent" p), S w)
  | FileDirectory p _ _ _ => (Ok (result_at refused "directory" p), S w)
  | Copy _ p _ _ _ => (Ok (result_at refused "file" p), S w)
  end.

Definition output0 : task_output :=
  {| o_failed := false; o_msg := None; o_changed := None;
     o_deleted_entries := []; o_managed_directories := [];
     o_managed_files := []; o_diff := None |}.

(** The scenario of the specification: [files/app/] holds the file
    [config.yml] and the directory [data]; the destination [/opt/app]
    holds a stray file [old.txt], a directory where [config.yml] is to
    go, and the directory [data]. *)
Definition app_found : list local_entry :=
  [ {| le_root := "/role/files/app/"; le_path := "config.yml";
       le_state := "file"; le_src := Some "/role/files/app/config.yml" |};
    {| le_root := "/role/files/app/"; le_path := "data";
       le_state := "directory"; le_src := None |} ].

Definition app_listing : list found_entry :=
  [ {| f_path := "/opt/app/old.txt"; f_isdir := false; f_isreg := true |};
    {| f_path := "/opt/app/config.yml"; f_isdir := true; f_isreg := false |};
    {| f_path := "/opt/app/data"; f_isdir := true; f_isreg := false |} ].

Definition app_args : gmap string pyval :=
  <["src" := PStr "app/"]>
    (<["dest" := PStr "/opt/app"]> (<["exclusive" := PBool true]> ∅)).

(** The planned entries and the listed entries of that scenario. *)
Definition planned_root : entry :=
  {| e_dest := "/opt/app"; e_state := "directory"; e_owner := PNone;
     e_group := PNone; e_src := None; e_template := false;
     e_mode := PNone; e_content := None |}.

Definition planned_config : entry :=
  {| e_dest := "/opt/app/config.yml"; e_state := "file"; e_owner := PNone;
     e_group := PNone; e_src := Some "/role/files/app/config.yml";
     e_template := false; e_mode := PNone;
     e_content := Some "content of /role/files/app/config.yml" |}.

Definition planned_data : entry :=
  {| e_dest := "/opt/app/data"; e_state := "directory"; e_owner := PNone;
     e_group := PNone; e_src := None; e_template := false;
     e_mode := PNone; e_content := None |}.

Definition app_planned : list entry :=
  [planned_root; planned_config; planned_data].

Definition old_txt : remote_entry :=
  {| re_path := {| pp_root := "/"; pp_parts := ["opt"; "app"; "old.txt"] |};
     re_isdir := false; re_isreg := true |}.

Definition config_yml : remote_entry :=
  {| re_path := {| pp_root := "/"; pp_parts := ["opt"; "app"; "config.yml"] |};
     re_isdir := true; re_isreg := false |}.

Definition data : remote_entry :=
  {| re_path := {| pp_root := "/"; pp_parts := ["opt"; "app"; "data"] |};
     re_isdir := true; re_isreg := false |}.

Definition app_remote : list remote_entry := [old_txt; config_yml; data].

(** A source directory that holds a directory [x] next to a template
    [x.j2]: both are planned at [x]. *)
Definition clash_found : list local_entry :=
  [ {| le_root := "/role/files/app/"; le_path := "x";
       le_state := "directory"; le_src := None |};
    {| le_root := "/role/files/app/"; le_path := "x.j2";
       le_state := "file"; le_src := Some "/role/files/app/x.j2" |} ].

Definition x_listing : list found_entry :=
  [ {| f_path := "/opt/app/x"; f_isdir := true; f_isreg := false |} ].

Definition remote_x : remote_entry :=
  {| re_path := {| pp_root := "/"; pp_parts := ["opt"; "app"; "x"] |};
     re_isdir := true; re_isreg := false |}.

(** Two sources: the template [x.j2] given as a file, and the directory
    [b/], which holds a directory [x]. *)
Definition file_then_directory_args : gmap string pyval :=
  <["src" := PList [PStr "x.j2"; PStr "b/"]]>
    (<["dest" := PStr "/opt/app"]> ∅).

Definition b_found : list local_entry :=
  [ {| le_root := "/role/files/b/"; le_path := "x";
       le_state := "directory"; le_src := None |} ].

(** Two source directories, [a] holding [x.txt] and [b] holding [y.txt]:
    what the lookup returns for the two of them. *)
Definition a_x : local_entry :=
  {| le_root := "/role/files/a"; le_path := "x.txt";
     le_state := "file"; le_src := Some "/role/files/a/x.txt" |}.

Definition b_y : local_entry :=
  {| le_root := "/role/files/b"; le_path := "y.txt";
     le_state := "file"; le_src := Some "/role/files/b/y.txt" |}.

(** An ignore path outside the destination root. *)
Definition foreign_ignore_args : gmap string pyval :=
  <["exclusive_ignore" := PList [PStr "/etc/keep"]]> app_args.

(** No [src]. *)
Definition no_src_args : gmap string pyval :=
  <["dest" := PStr "/opt/app"]> ∅.

End Sample.

(** ** Notions used to state further properties *)

(** The result carries the key [state] with this value. *)
Definition has_state (state : string) (r : mresult) : bool :=
  bool_decide (r_state r = Some state).

(** The result reports a change. *)
Definition reports_change (r : mresult) : bool :=
  bool_decide (r_changed r = Some true).

(** The diff records a result contributes: none, one, or a list. *)
Definition diffs_of (r : mresult) : list string :=
  match r_diff r with
  | None => []
  | Some (DiffOne d) => [d]
  | Some (DiffMany ds) => ds
  end.

(** The result carries the key [diff]. *)
Definition has_diff (r : mresult) : bool :=
  match r_diff r with
  | Some _ => true
  | None => false
  end.

(** The ignore path [i], as the task gave it, covers the remote entry
    whose absolute path is [a] and whose path relative to the
    destination root is [rel]: an absolute ignore path is compared with
    the absolute path, a relative one with the relative path. *)
Definition exempts (a rel i : PurePath) : Prop :=
  if pathlib.is_absolute i then equal_or_under a i else equal_or_under rel i.

(** Every absolute ignore path lies under the destination root. *)
Definition ignores_under (remote_path : string) (exclusive_ignore : list PurePath)
  : Prop :=
  forall i, In i exclusive_ignore -> pathlib.is_absolute i = true ->
    equal_or_under i (pathlib.parse remote_path).

(** A source entry that is a file without the key [src]. *)
Definition file_without_src (le : local_entry) : bool :=
  String.eqb (le_state le) "file"
  && match le_src le with None => true | Some _ => false end.

(** Further sample data. *)
Module Cases.

Definition absent_result : mresult :=
  {| r_failed := false; r_msg := None; r_changed := Some true;
     r_state := Some "absent"; r_diff := None; r_files := None |}.

Definition directory_result : mresult :=
  {| r_failed := false; r_msg := None; r_changed := Some false;
     r_state := Some "directory"; r_diff := Some (DiffMany ["mode"; "owner"]);
     r_files := None |}.

Definition file_result : mresult :=
  {| r_failed := false; r_msg := None; r_changed := Some false;
     r_state := Some "file"; r_diff := Some (DiffOne "content");
     r_files := None |}.

(** A result without the key [changed]. *)
Definition silent_result : mresult :=
  {| r_failed := false; r_msg := None; r_changed := None;
     r_state := None; r_diff := None; r_files := None |}.

Definition unchanged_result : mresult :=
  {| r_failed := false; r_msg := None; r_changed := Some false;
     r_state := Some "directory"; r_diff := None; r_files := None |}.

(** The ignore paths [keep] (relative) and [/opt/app/cache] (absolute). *)
Definition ignore_keep : PurePath := {| pp_root := ""; pp_parts := ["keep"] |}.
Definition ignore_cache : PurePath :=
  {| pp_root := "/"; pp_parts := ["opt"; "app"; "cache"] |}.

Definition cache_tmp : remote_entry :=
  {| re_path := {| pp_root := "/"; pp_parts := ["opt"; "app"; "cache"; "tmp"] |};
     re_isdir := false; re_isreg := true |}.

(** A listed entry outside the destination root. *)
Definition etc_passwd : remote_entry :=
  {| re_path := {| pp_root := "/"; pp_parts := ["etc"; "passwd"] |};
     re_isdir := false; re_isreg := true |}.

(** A link and a file that lost its [src]. *)
Definition a_link : local_entry :=
  {| le_root := "/role/files/app/"; le_path := "current";
     le_state := "link"; le_src := Some "releases/1" |}.

Definition a_file_without_src : local_entry :=
  {| le_root := "/role/files/app/"; le_path := "lost";
     le_state := "file"; le_src := None |}.

Definition a_template : local_entry :=
  {| le_root := "/role/files/app/"; le_path := "conf/site.yml.j2";
     le_state := "file"; le_src := Some "/role/files/app/conf/site.yml.j2" |}.

(** A loader that cannot find anything. *)
Definition loader_not_found (p : string) : res string := Raise AnsibleParserError.

(** A host on which every delete raises. *)
Definition execute_unreachable (listing : list found_entry)
  (c : module_call) (w : nat) : res mresult * nat :=
  match c with
  | FileAbsent _ => (Raise (CollaboratorError "unreachable"), S w)
  | _ => Sample.execute listing "" c w
  end.

(** A host whose deletes fail without a message. *)
Definition execute_mute (listing : list found_entry)
  (c : module_call) (w : nat) : res mresult * nat :=
  match c with
  | FileAbsent _ =>
      (Ok {| r_failed := true; r_msg := None; r_changed := None;
             r_state := None; r_diff := None; r_files := None |}, S w)
  | _ => Sample.execute listing "" c w
  end.

(** A host that cannot list the destination: the listing reports a
    failure and carries no [files]. *)
Definition execute_no_listing (c : module_call) (w : nat) : res mresult * nat :=
  match c with
  | Find _ =>
      (Ok {| r_failed := true; r_msg := Some "not a directory";
             r_changed := Some false; r_state := None; r_diff := None;
             r_files := None |}, S w)
  | _ => Sample.execute [] "" c w
  end.

Definition three_results : list mresult :=
  [absent_result; directory_result; file_result].

Definition app_with_cache : list remote_entry :=
  Sample.app_remote ++ [cache_tmp].

Definition app_ignores : list PurePath := [ignore_keep; ignore_cache].

Definition ignoring_args : gmap string pyval :=
  <["exclusive_ignore" := PList [PStr "keep"; PStr "/opt/app/cache"]]>
    Sample.app_args.

(** The template [conf/site.yml.j2] as planned for root, with its
    content rendered. *)
Definition planned_site : entry :=
  {| e_dest := "/opt/app/conf/site.yml"; e_state := "file";
     e_owner := PStr "root"; e_group := PStr "root";
     e_src := Some "/role/files/app/conf/site.yml.j2"; e_template := true;
     e_mode := PStr "0644";
     e_content := Some "rendered /role/files/app/conf/site.yml.j2" |}.

(** The planned file [config.yml] before its content is read. *)
Definition config_unresolved : entry :=
  {| e_dest := "/opt/app/config.yml"; e_state := "file"; e_owner := PNone;
     e_group := PNone; e_src := Some "/role/files/app/config.yml";
     e_template := false; e_mode := PNone; e_content := None |}.

(** A listed entry under the relative ignore path [keep]. *)
Definition keep_state : remote_entry :=
  {| re_path := {| pp_root := "/"; pp_parts := ["opt"; "app"; "keep"; "state"] |};
     re_isdir := false; re_isreg := true |}.

Definition app_with_kept : list remote_entry :=
  Sample.app_remote ++ [cache_tmp; keep_state].

(** Two source directories [a] and [b] that both hold [shared.txt]: the
    lookup over the two of them returns the copy of [a] only. *)
Definition shared_txt : local_entry :=
  {| le_root := "/role/files/a"; le_path := "shared.txt";
     le_state := "file"; le_src := Some "/role/files/a/shared.txt" |}.

Definition two_directories_args : gmap string pyval :=
  <["src" := PList [PStr "a"; PStr "b"]]>
    (<["dest" := PStr "/opt/app"]> ∅).

End Cases.

(** The string consists of separators only (the empty string too). *)
Fixpoint only_seps (s : string) : bool :=
  match s with
  | EmptyString => true
  | String c r => Ascii.eqb c "/" && only_seps r
  end.
Section Plugin.

Set Default Proof Using "Type".

(** The controller-side collaborators.  They read the local file system
    only, and every call to them precedes the first execution on the
    destination host, so they are functions of their arguments. *)

(** [self._loader.path_dwim_relative(basedir, "files", local_path)] *)
Variable path_dwim_relative : string -> string.
(** [os.path.exists] *)
Variable path_exists : string -> bool.
(** [stat.S_ISREG(os.lstat(p).st_mode)] *)
Variable S_ISREG : string -> bool.
(** the lookup [community.general.filetree], already reduced to the keys
    the plugin uses *)
Variable filetree_run : list string -> list local_entry.
(** the lookup [ansible.builtin.template] applied to one file *)
Variable template_lookup : string -> res string.
(** [self._loader._get_file_contents] followed by [to_text] *)
Variable loader_get_file_contents : string -> res string.

(** The destination host: a state [W] and the effect of one module or
    action execution on it. *)
Variable W : Type.
Variable execute : module_call -> W -> res mresult * W.

(** [src] as the list of source paths.  The plugin documents [src] as a
    path or a list of paths and checks nothing itself: a value of
    another type goes to the loader as it is.  The model covers the
    string values only, and stops with [TypeError] at any other where
    the merger reads it. *)
Definition source_path (v : pyval) : res string :=
  match v with
  | PStr s => Ok s
  | _ => Raise TypeError
  end.

(** The entry appended for a source that is a regular file. *)
Definition file_root_entry (found_path : string) : local_entry :=
  {| le_root := posixpath.dirname found_path +:+ posixpath.sep;
     le_path := posixpath.basename found_path;
     le_state := "file";
     le_src := Some found_path |}.

(** The entry the plugin inserts for a source directory itself. *)
Definition directory_root_entry (local_path : string) : local_entry :=
  {| le_root := local_path;
     le_path := "";
     le_state := "directory";
     le_src := None |}.

(** The body of the loop of [_get_local_entries]: what one iteration
    appends to [entries].  [local_paths] is the whole list, which is what
    the lookup is called with at every directory. *)
Definition local_entries_of (local_paths : list string) (local_path : string)
  : list local_entry :=
  let found_path := path_dwim_relative local_path in
  if path_exists found_path && S_ISREG found_path
  then [file_root_entry found_path]
  else directory_root_entry local_path :: filetree_run local_paths.

Fixpoint local_entries_loop (local_paths todo : list string)
  (entries : list local_entry) : list local_entry :=
  match todo with
  | [] => entries
  | local_path :: todo' =>
      local_entries_loop local_paths todo'
        (entries ++ local_entries_of local_paths local_path)
  end.

(** [_get_local_entries] *)
Definition _get_local_entries (local_paths : list pyval) : res (list local_entry) :=
  paths <-? res_map source_path local_paths ;;
  Ok (local_entries_loop paths paths []).

(** [destination_root] of [_get_entries_to_create] (lines 198-201). *)
Definition destination_root (remote_path : string) (local_entry : local_entry)
  : string :=
  if negb (Str.endswith (le_root local_entry) posixpath.sep)
  then posixpath.join remote_path (posixpath.basename (le_root local_entry))
  else remote_path.

(** [destination_path] of [_get_entries_to_create] (lines 196-207). *)
Definition destination_path (remote_path : string) (local_entry : local_entry)
  : string :=
  let relative_path := posixpath.normpath (le_path local_entry) in
  posixpath.normpath
    (posixpath.join (destination_root remote_path local_entry) relative_path).

(** One turn of the loop of [_get_entries_to_create]: the entry yielded,
    [None] for an ignored state, [KeyError] when a file has no [src]. *)
Definition planned_entry (remote_path : string)
  (owner group file_mode directory_mode : pyval) (local_entry : local_entry)
  : res (option entry) :=
  let destination_path := destination_path remote_path local_entry in
  if String.eqb (le_state local_entry) "file" then
    match le_src local_entry with
    | None => Raise (KeyError "src")
    | Some src =>
        let template := Str.endswith destination_path TEMPLATE_EXTENSION in
        Ok (Some {| e_dest := if template
                              then Str.drop_end (String.length TEMPLATE_EXTENSION)
                                                destination_path
                              else destination_path;
                    e_state := le_state local_entry;
                    e_owner := owner;
                    e_group := group;
                    e_src := Some src;
                    e_template := template;
                    e_mode := file_mode;
                    e_content := None |})
    end
  else if String.eqb (le_state local_entry) "directory" then
    Ok (Some {| e_dest := destination_path;
                e_state := le_state local_entry;
                e_owner := owner;
                e_group := group;
                e_src := None;
                e_template := false;
                e_mode := directory_mode;
                e_content := None |})
  else Ok None.

(** [list(self._get_entries_to_create(...))] *)
Definition _get_entries_to_create (local_entries : list local_entry)
  (remote_path : string) (owner group file_mode directory_mode : pyval)
  : res (list entry) :=
  planned <-? res_map (planned_entry remote_path owner group file_mode
                                     directory_mode) local_entries ;;
  Ok (omap id planned).

(** [_get_local_file_contents] *)
Definition _get_local_file_contents (path : string) : res string :=
  match loader_get_file_contents path with
  | Raise AnsibleParserError =>
      Raise (AnsibleError ("could not locate file in lookup: " +:+ path))
  | r => r
  end.

(** One turn of the loop of [_set_file_contents]. *)
Definition set_file_content (file : entry) : res entry :=
  if String.eqb (e_state file) "file" then
    match e_src file with
    | None => Raise (KeyError "src")
    | Some src =>
        content <-? (if e_template file then template_lookup src
                     else _get_local_file_contents src) ;;
        Ok {| e_dest := e_dest file; e_state := e_state file;
              e_owner := e_owner file; e_group := e_group file;
              e_src := e_src file; e_template := e_template file;
              e_mode := e_mode file; e_content := Some content |}
    end
  else Ok file.

(** [_set_file_contents]: the entries are updated in place; the model
    returns the updated list. *)
Definition _set_file_contents (entries : list entry) : res (list entry) :=
  res_map set_file_content entries.

(** *** The reconciler *)

(** One element of the rewriting of [exclusive_ignore] (lines 277-282):
    an absolute ignore path is made relative to [remote_path], which
    raises [ValueError] when it is not under it. *)
Definition rewrite_ignore (remote_path : string) (i : PurePath) : res PurePath :=
  if pathlib.is_absolute i then
    match pathlib.relative_to i (pathlib.parse remote_path) with
    | Some r => Ok r
    | None => Raise ValueError
    end
  else Ok i.

(** [remote_state] (lines 327-333) *)
Definition remote_state (remote_entry : remote_entry) : string :=
  if re_isdir remote_entry then "directory"
  else if re_isreg remote_entry then "file"
  else "other".

(** [local_match] (lines 291-298): the first planned entry whose [dest],
    parsed as a [PurePath], equals the remote path. *)
Definition local_match (local_entries : list entry) (absolute_path : PurePath)
  : option entry :=
  List.find (fun local_entry =>
               pathlib.eqb (pathlib.parse (e_dest local_entry)) absolute_path)
            local_entries.

(** [ignore_match] (lines 302-309) *)
Definition ignore_match (exclusive_ignore : list PurePath)
  (relative_path : PurePath) : option PurePath :=
  List.find (fun ignore_path => pathlib.is_relative_to relative_path ignore_path)
            exclusive_ignore.

(** One turn of the loop of [_get_entries_to_delete]: whether the remote
    entry is yielded. [exclusive_ignore] is the rewritten list. *)
Definition yields (local_entries : list entry) (remote_path : string)
  (exclusive : pyval) (exclusive_ignore : list PurePath)
  (remote_entry : remote_entry) : res bool :=
  let absolute_path := re_path remote_entry in
  match pathlib.relative_to absolute_path (pathlib.parse remote_path) with
  | None => Raise ValueError
  | Some relative_path =>
      match local_match local_entries absolute_path with
      | None =>
          if truthy exclusive then
            match ignore_match exclusive_ignore relative_path with
            | Some _ => Ok false
            | None => Ok true
            end
          else Ok false
      | Some local_match =>
          if negb (String.eqb (e_state local_match) (remote_state remote_entry))
          then Ok true
          else Ok false
      end
  end.

Fixpoint delete_loop (local_entries : list entry) (remote_path : string)
  (exclusive : pyval) (exclusive_ignore : list PurePath)
  (remote_entries : list remote_entry) : res (list remote_entry) :=
  match remote_entries with
  | [] => Ok []
  | remote_entry :: rest =>
      y <-? yields local_entries remote_path exclusive exclusive_ignore
                   remote_entry ;;
      ys <-? delete_loop local_entries remote_path exclusive exclusive_ignore
                         rest ;;
      Ok (if y then remote_entry :: ys else ys)
  end.

(** [list(self._get_entries_to_delete(...))] *)
Definition _get_entries_to_delete (local_entries : list entry)
  (remote_entries : list remote_entry) (remote_path : string)
  (exclusive : pyval) (exclusive_ignore : list PurePath)
  : res (list remote_entry) :=
  exclusive_ignore <-? res_map (rewrite_ignore remote_path) exclusive_ignore ;;
  delete_loop local_entries remote_path exclusive exclusive_ignore
              remote_entries.

(** *** Executions on the destination host *)

Record host_state : Type := mkHost {
  world : W;
  trace : list module_call
}.

Definition M (A : Type) : Type := host_state -> res A * host_state.

Definition ret {A : Type} (a : A) : M A := fun st => (Ok a, st).

Definition raise {A : Type} (e : exn) : M A := fun st => (Raise e, st).

Definition lift {A : Type} (r : res A) : M A := fun st => (r, st).

Definition bind {A B : Type} (m : M A) (k : A -> M B) : M B :=
  fun st =>
    match m st with
    | (Ok a, st') => k a st'
    | (Raise e, st') => (Raise e, st')
    end.

Notation "x <-! e ;; k" := (bind e (fun x => k))
  (at level 100, e at next level, right associativity).

(** [self._execute_module(...)] and the run of the copy action: the host
    changes as the collaborator says and the call is recorded. *)
Definition _execute_module (call : module_call) : M mresult :=
  fun st =>
    let '(r, w) := execute call (world st) in
    (r, {| world := w; trace := trace st ++ [call] |}).

(** The exception of [raise AnsibleError(res["msg"])]: the collaborator's
    message, or the [KeyError] of a result without one. *)
Definition failure (result : mresult) : exn :=
  match r_msg result with
  | Some msg => AnsibleError msg
  | None => KeyError "msg"
  end.

(** [if res.get("failed", False): raise AnsibleError(res["msg"])] *)
Definition check_failed (result : mresult) : M unit :=
  if r_failed result then raise (failure result) else ret tt.

(** Line 188: the path of a listed entry is rebuilt as
    [PurePath(path + "/.")]. *)
Definition remote_entry_of (f : found_entry) : remote_entry :=
  {| re_path := pathlib.parse (f_path f +:+ "/.");
     re_isdir := f_isdir f;
     re_isreg := f_isreg f |}.

(** [_get_remote_entries]: the listing of the destination. *)
Definition _get_remote_entries (remote_path : string) : M (list remote_entry) :=
  result <-! _execute_module (Find remote_path) ;;
  match r_files result with
  | None => raise (KeyError "files")
  | Some files =>
      ret (List.map remote_entry_of files)
  end.

Definition delete_call (entry : remote_entry) : module_call :=
  FileAbsent (pathlib.to_str (re_path entry)).

(** [list(self._delete_entries(entries))] *)
Fixpoint _delete_entries (entries : list remote_entry) : M (list mresult) :=
  match entries with
  | [] => ret []
  | entry :: rest =>
      res <-! _execute_module (delete_call entry) ;;
      _ <-! check_failed res ;;
      results <-! _delete_entries rest ;;
      ret (res :: results)
  end.

(** [_copy_file] *)
Definition _copy_file (file : entry) : M mresult :=
  match e_content file with
  | None => raise (KeyError "content")
  | Some content =>
      _execute_module (Copy content (e_dest file) (e_group file)
                            (e_owner file) (e_mode file))
  end.

(** [_create_directory] *)
Definition _create_directory (directory : entry) : M mresult :=
  _execute_module (FileDirectory (e_dest directory) (e_group directory)
                                 (e_owner directory) (e_mode directory)).

(** The loop of [_create_entries].  [result] is the Python local of that
    name: an entry that is neither file nor directory leaves it as the
    previous turn set it, or unbound on the first turn. *)
Fixpoint create_loop (entries : list entry) (result : option mresult)
  : M (list mresult) :=
  match entries with
  | [] => ret []
  | entry :: rest =>
      result <-! (if String.eqb (e_state entry) "file"
                  then r <-! _copy_file entry ;; ret (Some r)
                  else if String.eqb (e_state entry) "directory"
                  then r <-! _create_directory entry ;; ret (Some r)
                  else ret result) ;;
      match result with
      | None => raise UnboundLocalError
      | Some r =>
          _ <-! check_failed r ;;
          results <-! create_loop rest (Some r) ;;
          ret (r :: results)
      end
  end.

(** [self._create_entries(entries)], consumed by [results.extend] *)
Definition _create_entries (entries : list entry) : M (list mresult) :=
  create_loop entries None.

(** *** The result and the run *)

(** One turn of the loop of [_build_output]. *)
Definition add_result (output : task_output) (result : mresult) : res task_output :=
  let deleted :=
    if bool_decide (r_state result = Some "absent")
    then o_deleted_entries output ++ [result] else o_deleted_entries output in
  let directories :=
    if bool_decide (r_state result = Some "directory")
    then o_managed_directories output ++ [result]
    else o_managed_directories output in
  let files :=
    if bool_decide (r_state result = Some "file")
    then o_managed_files output ++ [result] else o_managed_files output in
  changed <-? (if default false (o_changed output) then Ok true
               else match r_changed result with
                    | Some c => Ok c
                    | None => Raise (KeyError "changed")
                    end) ;;
  let diff :=
    match r_diff result with
    | None => o_diff output
    | Some (DiffMany ds) => Some (default [] (o_diff output) ++ ds)
    | Some (DiffOne d) => Some (default [] (o_diff output) ++ [d])
    end in
  Ok {| o_failed := o_failed output; o_msg := o_msg output;
        o_changed := Some changed;
        o_deleted_entries := deleted;
        o_managed_directories := directories;
        o_managed_files := files;
        o_diff := diff |}.

Fixpoint build_output_loop (output : task_output) (operation_results : list mresult)
  : res task_output :=
  match operation_results with
  | [] => Ok output
  | result :: rest =>
      output <-? add_result output result ;;
      build_output_loop output rest
  end.

(** [_build_output] *)
Definition _build_output (output : task_output) (operation_results : list mresult)
  : res task_output :=
  build_output_loop
    {| o_failed := o_failed output; o_msg := o_msg output;
       o_changed := o_changed output;
       o_deleted_entries := []; o_managed_directories := [];
       o_managed_files := []; o_diff := o_diff output |}
    operation_results.

(** The early return of [run] for a missing required argument. *)
Definition missing_argument (output : task_output) (arg : string)
  : task_output :=
  {| o_failed := true;
     o_msg := Some ("missing required argument '" +:+ arg +:+ "'");
     o_changed := o_changed output;
     o_deleted_entries := o_deleted_entries output;
     o_managed_directories := o_managed_directories output;
     o_managed_files := o_managed_files output;
     o_diff := o_diff output |}.

(** [dest] as a path.  The plugin documents [dest] as a path and hands
    it to the destination host unchecked.  The model covers the string
    values only, and stops with [TypeError] at any other, before the
    listing. *)
Definition dest_path (v : pyval) : res string :=
  match v with
  | PStr s => Ok s
  | _ => Raise TypeError
  end.

(** The locals of [run] when the first delete starts (after line 55). *)
Record plan : Type := mkPlan {
  remote_path : string;
  local_entries : list local_entry;
  remote_entries : list remote_entry;
  to_create : list entry;
  to_delete : list remote_entry
}.

(** Lines 25-55 of [run]: arguments, merge, listing, mapping, contents,
    delete set. *)
Definition plan_run (args : gmap string pyval) : M plan :=
  let dest := default PNone (args !! "dest") in
  let local_paths := as_list (default PNone (args !! "src")) in
  let owner := default PNone (args !! "owner") in
  let group := default PNone (args !! "group") in
  let file_mode := default PNone (args !! "file_mode") in
  let directory_mode := default PNone (args !! "directory_mode") in
  let exclusive := default (PBool false) (args !! "exclusive") in
  exclusive_ignore <-! lift (_parse_path_list args "exclusive_ignore") ;;
  local_entries <-! lift (_get_local_entries local_paths) ;;
  remote_path <-! lift (dest_path dest) ;;
  remote_entries <-! _get_remote_entries remote_path ;;
  to_create <-! lift (_get_entries_to_create local_entries remote_path owner
                                             group file_mode directory_mode) ;;
  to_create <-! lift (_set_file_contents to_create) ;;
  to_delete <-! lift (_get_entries_to_delete to_create remote_entries
                                             remote_path exclusive
                                             exclusive_ignore) ;;
  ret {| remote_path := remote_path;
         local_entries := local_entries;
         remote_entries := remote_entries;
         to_create := to_create;
         to_delete := to_delete |}.

(** Lines 57-61 of [run]: deletes, then creates, then the output. *)
Definition apply_plan (output : task_output) (p : plan) : M task_output :=
  results <-! _delete_entries (to_delete p) ;;
  created <-! _create_entries (to_create p) ;;
  lift (_build_output output (results ++ created)).

(** Lines 19-23: the first required argument that is not in the task's
    arguments, if any. *)
Definition missing_required (args : gmap string pyval) : option string :=
  List.find (fun arg => negb (bool_decide (is_Some (args !! arg))))
            REQUIRED_ARGS.

(** [ActionModule.run]; [output] is what [super().run] returned. *)
Definition run (output : task_output) (args : gmap string pyval) : M task_output :=
  match missing_required args with
  | Some arg => ret (missing_argument output arg)
  | None =>
      p <-! plan_run args ;;
      apply_plan output p
  end.


(** *** Notions used to state the properties of the run *)

(** The host after [calls] were executed on it one after the other. *)
Fixpoint host_after (calls : list module_call) (w : W) : W :=
  match calls with
  | [] => w
  | c :: cs => host_after cs (snd (execute c w))
  end.

(** Every call of [calls], executed in turn from [w], reports success. *)
Fixpoint all_succeed (calls : list module_call) (w : W) : Prop :=
  match calls with
  | [] => True
  | c :: cs =>
      (exists r, fst (execute c w) = Ok r /\ r_failed r = false) /\
      all_succeed cs (snd (execute c w))
  end.

(** The loop shared by [_delete_entries] and [_create_entries]: execute,
    stop at the first reported failure, collect the results. *)
Fixpoint run_calls (calls : list module_call) : M (list mresult) :=
  match calls with
  | [] => ret []
  | c :: cs =>
      r <-! _execute_module c ;;
      _ <-! check_failed r ;;
      rs <-! run_calls cs ;;
      ret (r :: rs)
  end.

(** [e] is the planned entry of the source entry [le] under the
    destination root [d], with its content resolved. *)
Definition plans (d : string) (le : local_entry) (e : entry) : Prop :=
  exists owner group file_mode directory_mode e0,
    planned_entry d owner group file_mode directory_mode le = Ok (Some e0) /\
    set_file_content e0 = Ok e.

(** The executions a plan asks for, in the order [apply_plan] issues them. *)
Definition plan_calls (p : plan) : list module_call :=
  List.map delete_call (to_delete p) ++ omap create_call (to_create p).

(** The state of the run after [calls] were executed and recorded. *)
Definition state_after (calls : list module_call) (st : host_state) : host_state :=
  {| world := host_after calls (world st); trace := trace st ++ calls |}.

(** The call [c], executed on the host [w], reports failure, which the
    plugin turns into the exception [e]. *)
Definition reports_failure (c : module_call) (w : W) (e : exn) : Prop :=
  exists r, fst (execute c w) = Ok r /\ r_failed r = true /\ e = failure r.

(** What the host answers to [calls], executed one after the other. *)
Fixpoint answers (calls : list module_call) (w : W) : list (res mresult) :=
  match calls with
  | [] => []
  | c :: cs => fst (execute c w) :: answers cs (snd (execute c w))
  end.

(** The call [c], executed on the host [w], ends the run with the
    exception [e]: the collaborator raises [e], or it reports a failure
    that the plugin raises as [e]. *)
Definition aborts_with (c : module_call) (w : W) (e : exn) : Prop :=
  fst (execute c w) = Raise e \/ reports_failure c w e.

(** The content of a planned file is what its one strategy gave: the
    template lookup for a template, the plain read otherwise. *)
Definition resolved (e : entry) : Prop :=
  exists src content,
    e_src e = Some src /\ e_content e = Some content /\
    (if e_template e then template_lookup src
     else _get_local_file_contents src) = Ok content.

(** * Properties *)

(** ** Paths *)

Lemma strip_prefix_spec (pre xs rest : list string) :
  pathlib.strip_prefix pre xs = Some rest <-> xs = pre ++ rest.
Proof.
  revert xs. induction pre as [|a pre IH]; intros xs; simpl.
  - split; intros H; [inversion H | subst]; reflexivity.
  - destruct xs as [|b xs].
    + split; intros H; discriminate H.
    + destruct (String.eqb_spec a b) as [->|Hne].
      * rewrite IH. split; intros H; [subst | inversion H]; reflexivity.
      * split; intros H; [discriminate H | inversion H; congruence].
Qed.

Lemma pathlib_eqb_eq (p q : PurePath) : pathlib.eqb p q = true <-> p = q.
Proof.
  unfold pathlib.eqb. destruct p as [rp pp], q as [rq pq]; simpl.
  rewrite andb_true_iff, String.eqb_eq, bool_decide_eq_true.
  split; [intros [-> ->] | intros [= -> ->]]; auto.
Qed.

Lemma relative_to_Some (p q r : PurePath) :
  pathlib.relative_to p q = Some r <->
  pp_root p = pp_root q /\ pp_root r = "" /\ pp_parts p = pp_parts q ++ pp_parts r.
Proof.
  unfold pathlib.relative_to.
  destruct (String.eqb_spec (pp_root p) (pp_root q)) as [Hr|Hr].
  - destruct (pathlib.strip_prefix (pp_parts q) (pp_parts p)) as [rest|] eqn:E.
    + apply strip_prefix_spec in E. split.
      * intros [= <-]. simpl. auto.
      * intros (_ & Hroot & Hparts). destruct r as [rr pr]; simpl in *.
        subst rr. rewrite E in Hparts. apply app_inv_head in Hparts.
        subst. reflexivity.
    + split; [discriminate|]. intros (_ & _ & Hparts).
      apply strip_prefix_spec in Hparts. congruence.
  - split; [discriminate | intros (H & _); contradiction].
Qed.

Lemma relative_to_is_Some (p q : PurePath) :
  is_Some (pathlib.relative_to p q) <-> equal_or_under p q.
Proof.
  split.
  - intros [r Hr]. apply relative_to_Some in Hr as (H1 & _ & H3).
    split; [assumption | eauto].
  - intros [H1 [rest H2]]. exists {| pp_root := ""; pp_parts := rest |}.
    apply relative_to_Some. auto.
Qed.

Lemma is_relative_to_spec (p q : PurePath) :
  pathlib.is_relative_to p q = true <-> equal_or_under p q.
Proof.
  rewrite <- relative_to_is_Some. unfold pathlib.is_relative_to.
  destruct (pathlib.relative_to p q); split; intros H;
    try discriminate; eauto.
  destruct H; discriminate.
Qed.

(** ** The reconciler *)

Lemma local_match_None (local_entries : list entry) (a : PurePath) :
  local_match local_entries a = None <->
  forall p, In p local_entries -> pathlib.parse (e_dest p) <> a.
Proof.
  unfold local_match. induction local_entries as [|e l IH]; simpl.
  - split; [intros _ p [] | reflexivity].
  - destruct (pathlib.eqb (pathlib.parse (e_dest e)) a) eqn:E.
    + apply pathlib_eqb_eq in E. split; [discriminate|].
      intros H. exfalso. apply (H e); auto.
    + rewrite IH. split.
      * intros H p [<-|Hp]; [|auto].
        intros Heq. apply pathlib_eqb_eq in Heq. congruence.
      * intros H p Hp. apply H. auto.
Qed.

Lemma local_match_first (local_entries : list entry) (a : PurePath) (p : entry) :
  local_match local_entries a = Some p <-> first_match local_entries a p.
Proof.
  unfold local_match, first_match.
  induction local_entries as [|e l IH]; simpl.
  - split; [discriminate|]. intros (b & t & H & _).
    destruct b; discriminate H.
  - destruct (pathlib.eqb (pathlib.parse (e_dest e)) a) eqn:E.
    + apply pathlib_eqb_eq in E. split.
      * intros [= <-]. exists [], l. split; [reflexivity|]. split; [assumption|].
        intros q [].
      * intros (b & t & Hl & Hp & Hb). destruct b as [|e' b]; simpl in Hl.
        -- congruence.
        -- injection Hl as <- _. exfalso. apply (Hb e); simpl; auto.
    + rewrite IH. split.
      * intros (b & t & -> & Hp & Hb). exists (e :: b), t.
        repeat split; auto. intros q [<-|Hq]; [|auto].
        intros Heq. apply pathlib_eqb_eq in Heq. congruence.
      * intros (b & t & Hl & Hp & Hb). destruct b as [|e' b]; simpl in Hl.
        -- injection Hl as -> _. apply pathlib_eqb_eq in Hp. congruence.
        -- injection Hl as <- ->. exists b, t. repeat split; auto.
           intros q Hq. apply Hb. simpl; auto.
Qed.

Lemma ignore_match_None (exclusive_ignore : list PurePath) (rel : PurePath) :
  ignore_match exclusive_ignore rel = None <->
  forall i, In i exclusive_ignore -> ~ equal_or_under rel i.
Proof.
  unfold ignore_match. induction exclusive_ignore as [|i l IH]; simpl.
  - split; [intros _ i [] | reflexivity].
  - destruct (pathlib.is_relative_to rel i) eqn:E.
    + apply is_relative_to_spec in E. split; [discriminate|].
      intros H. exfalso. apply (H i); auto.
    + rewrite IH. split.
      * intros H j [<-|Hj]; [|auto].
        rewrite <- is_relative_to_spec. congruence.
      * intros H j Hj. apply H. auto.
Qed.

Lemma yields_total (local_entries : list entry) (remote_path : string)
  (exclusive : pyval) (ignore : list PurePath) (r : remote_entry) :
  equal_or_under (re_path r) (pathlib.parse remote_path) ->
  exists b, yields local_entries remote_path exclusive ignore r = Ok b.
Proof.
  intros Hr. apply relative_to_is_Some in Hr as [rel Hrel].
  unfold yields. rewrite Hrel.
  destruct (local_match local_entries (re_path r)) as [m|].
  - destruct (negb (e_state m =? remote_state r)%string); eauto.
  - destruct (truthy exclusive); [|eauto].
    destruct (ignore_match ignore rel); eauto.
Qed.

(** The delete set is the listing filtered, in the order of the listing. *)
Lemma delete_loop_filter (local_entries : list entry) (remote_path : string)
  (exclusive : pyval) (ignore : list PurePath) (remote_entries : list remote_entry) :
  listed_under remote_path remote_entries ->
  delete_loop local_entries remote_path exclusive ignore remote_entries
  = Ok (List.filter
          (fun r => bool_decide
             (yields local_entries remote_path exclusive ignore r = Ok true))
          remote_entries).
Proof.
  induction remote_entries as [|r rs IH]; intros Hu; [reflexivity|].
  simpl. rewrite IH by (intros r' Hr'; apply Hu; simpl; auto).
  destruct (yields_total local_entries remote_path exclusive ignore r) as [b Hb];
    [apply Hu; simpl; auto|].
  rewrite Hb. simpl. destruct b.
  - rewrite bool_decide_eq_true_2 by reflexivity. reflexivity.
  - rewrite bool_decide_eq_false_2 by discriminate. reflexivity.
Qed.

(** What the rewriting of an ignore path means: a relative ignore path
    is compared with the remote entry's relative path as it is; an
    absolute one exempts exactly the remote paths equal to it or under
    it. *)
Lemma rewritten_ignore_meaning (remote_path : string) (i i' a rel : PurePath) :
  rewrite_ignore remote_path i = Ok i' ->
  pathlib.relative_to a (pathlib.parse remote_path) = Some rel ->
  (equal_or_under rel i' <->
   if pathlib.is_absolute i then equal_or_under a i else equal_or_under rel i).
Proof.
  unfold rewrite_ignore. intros Hi Ha.
  destruct (pathlib.is_absolute i); [|injection Hi as <-; reflexivity].
  destruct (pathlib.relative_to i (pathlib.parse remote_path)) as [j|] eqn:Ej;
    [|discriminate Hi].
  injection Hi as <-.
  apply relative_to_Some in Ej as (Hri & Hrj & Hpi).
  apply relative_to_Some in Ha as (Hra & Hrr & Hpa).
  unfold equal_or_under. rewrite Hrr, Hrj, Hra, Hri, Hpa, Hpi. split.
  - intros [_ [rest ->]]. split; [reflexivity|].
    exists rest. rewrite app_assoc. reflexivity.
  - intros [_ [rest H]]. split; [reflexivity|].
    exists rest. rewrite <- app_assoc in H.
    apply app_inv_head in H. exact H.
Qed.

(** C3, as amended.  When the first planned entry whose destination is
    the remote entry's path has a state other than the remote entry's
    derived state, the remote entry is in the delete set, whatever
    [exclusive] and [exclusive_ignore] are, as long as the delete set is
    computed at all. *)
Theorem first_match_of_other_kind_is_deleted
  (local_entries : list entry) (remote_entries : list remote_entry)
  (remote_path : string) (exclusive : pyval)
  (exclusive_ignore ignore : list PurePath)
  (r : remote_entry) (p : entry) :
  res_map (rewrite_ignore remote_path) exclusive_ignore = Ok ignore ->
  listed_under remote_path remote_entries ->
  In r remote_entries ->
  first_match local_entries (re_path r) p ->
  e_state p <> remote_state r ->
  exists to_delete,
    _get_entries_to_delete local_entries remote_entries remote_path
                           exclusive exclusive_ignore = Ok to_delete /\
    In r to_delete.
Proof.
  intros Hig Hu Hr Hfirst Hkind.
  unfold _get_entries_to_delete. rewrite Hig. simpl.
  rewrite delete_loop_filter by assumption.
  eexists. split; [reflexivity|].
  rewrite filter_In, bool_decide_eq_true. split; [assumption|].
  destruct (proj2 (relative_to_is_Some _ _) (Hu r Hr)) as [rel Hrel].
  unfold yields. rewrite Hrel.
  apply local_match_first in Hfirst. rewrite Hfirst.
  destruct (String.eqb_spec (e_state p) (remote_state r)); [contradiction|].
  reflexivity.
Qed.

(** The derived state of a remote entry, by its two flags: a planned
    file agrees with it only if [isreg] holds, a planned directory
    exactly if [isdir] holds, and an entry with neither flag agrees with
    no planned file or directory. *)
Lemma remote_state_flags (r : remote_entry) :
  (remote_state r = "file" <-> re_isdir r = false /\ re_isreg r = true) /\
  (remote_state r = "directory" <-> re_isdir r = true) /\
  (remote_state r = "other" <-> re_isdir r = false /\ re_isreg r = false).
Proof.
  unfold remote_state.
  destruct (re_isdir r), (re_isreg r); repeat split;
    try discriminate; try reflexivity;
    try (intros [H1 H2]; discriminate).
Qed.

(** C4, as amended.  The delete set holds no remote entry for which the
    first planned entry with that destination has the same state. *)
Theorem first_match_of_same_kind_is_kept
  (local_entries : list entry) (remote_entries : list remote_entry)
  (remote_path : string) (exclusive : pyval) (exclusive_ignore : list PurePath)
  (to_delete : list remote_entry) (r : remote_entry) (p : entry) :
  _get_entries_to_delete local_entries remote_entries remote_path
                         exclusive exclusive_ignore = Ok to_delete ->
  first_match local_entries (re_path r) p ->
  e_state p = remote_state r ->
  ~ In r to_delete.
Proof.
  unfold _get_entries_to_delete.
  destruct (res_map (rewrite_ignore remote_path) exclusive_ignore)
    as [ignore|e]; simpl; [|discriminate].
  intros Hloop Hfirst Hkind. apply local_match_first in Hfirst.
  revert to_delete Hloop.
  induction remote_entries as [|r' rs IH]; simpl; intros to_delete Hloop.
  - injection Hloop as <-. intros [].
  - destruct (yields local_entries remote_path exclusive ignore r')
      as [y|e] eqn:Hy; simpl in Hloop; [|discriminate].
    destruct (delete_loop local_entries remote_path exclusive ignore rs)
      as [ys|e]; simpl in Hloop; [|discriminate].
    injection Hloop as <-. specialize (IH ys eq_refl).
    destruct y; [|assumption].
    intros [->|Hin]; [|contradiction].
    unfold yields in Hy.
    destruct (pathlib.relative_to (re_path r) (pathlib.parse remote_path));
      [|discriminate].
    rewrite Hfirst, Hkind, String.eqb_refl in Hy. discriminate.
Qed.

(** ** The executor *)

Lemma delete_entries_run_calls (entries : list remote_entry) (st : host_state) :
  _delete_entries entries st = run_calls (List.map delete_call entries) st.
Proof.
  revert st. induction entries as [|e es IH]; intros st; [reflexivity|].
  simpl. unfold bind.
  destruct (_execute_module (delete_call e) st) as [[r|x] st1]; [|reflexivity].
  destruct (check_failed r st1) as [[[]|x] st2]; [|reflexivity].
  rewrite IH. reflexivity.
Qed.

Lemma create_loop_run_calls (entries : list entry) (calls : list module_call)
  (result : option mresult) (st : host_state) :
  List.map create_call entries = List.map Some calls ->
  create_loop entries result st = run_calls calls st.
Proof.
  revert calls result st.
  induction entries as [|e es IH]; intros [|c cs] result st Hc;
    try discriminate Hc; [reflexivity|].
  simpl in Hc. injection Hc as Hc Hcs.
  assert (Hstep : (if String.eqb (e_state e) "file"
                   then r <-! _copy_file e ;; ret (Some r)
                   else if String.eqb (e_state e) "directory"
                   then r <-! _create_directory e ;; ret (Some r)
                   else ret result)
                  = (r <-! _execute_module c ;; ret (Some r))).
  { unfold create_call in Hc. destruct (String.eqb (e_state e) "file").
    - unfold _copy_file. destruct (e_content e); [|discriminate Hc].
      injection Hc as <-. reflexivity.
    - destruct (String.eqb (e_state e) "directory"); [|discriminate Hc].
      injection Hc as <-. reflexivity. }
  cbn [create_loop run_calls]. rewrite Hstep. unfold bind, ret.
  destruct (_execute_module c st) as [[r|x] st1]; [|reflexivity].
  destruct (check_failed r st1) as [[[]|x] st2]; [|reflexivity].
  rewrite (IH cs) by assumption. reflexivity.
Qed.

Lemma check_failed_state (r : mresult) (st : host_state) :
  snd (check_failed r st) = st.
Proof.
  unfold check_failed. destruct (r_failed r); reflexivity.
Qed.

Lemma check_failed_Ok (r : mresult) (st : host_state) (u : unit) (st' : host_state) :
  check_failed r st = (Ok u, st') <-> r_failed r = false /\ st' = st.
Proof.
  unfold check_failed. destruct (r_failed r).
  - split; [discriminate | intros [H _]; discriminate H].
  - unfold ret. split; [intros [= _ <-]; auto | intros [_ ->]; destruct u; auto].
Qed.

Lemma execute_module_eq (c : module_call) (st : host_state) :
  _execute_module c st = (fst (execute c (world st)), state_after [c] st).
Proof.
  unfold _execute_module, state_after. simpl.
  destruct (execute c (world st)); reflexivity.
Qed.

Lemma state_after_nil (st : host_state) : state_after [] st = st.
Proof. unfold state_after. simpl. rewrite app_nil_r. destruct st; reflexivity. Qed.

Lemma state_after_app (a b : list module_call) (st : host_state) :
  state_after (a ++ b) st = state_after b (state_after a st).
Proof.
  unfold state_after. simpl. rewrite app_assoc. f_equal.
  generalize (world st). induction a as [|c a IH]; intros w; simpl; auto.
Qed.

(** Whatever happens, the loop executes an initial segment of its calls
    and nothing else; it returns only after executing all of them. *)
Lemma run_calls_prefix (calls : list module_call) (st : host_state)
  (x : res (list mresult)) (st' : host_state) :
  run_calls calls st = (x, st') ->
  exists n,
    n <= length calls /\ st' = state_after (take n calls) st /\
    (forall rs, x = Ok rs -> n = length calls).
Proof.
  revert st x st'. induction calls as [|c cs IH]; intros st x st' H.
  - injection H as <- <-. exists 0. rewrite state_after_nil.
    repeat split; auto.
  - cbn [run_calls] in H. unfold bind, ret in H.
    rewrite execute_module_eq in H.
    destruct (fst (execute c (world st))) as [r|e].
    + destruct (check_failed r (state_after [c] st)) as [[[]|e] st2] eqn:Ec.
      * apply check_failed_Ok in Ec as [_ ->].
        destruct (run_calls cs (state_after [c] st)) as [y st3] eqn:Er.
        apply IH in Er as (n & Hn & -> & Hok).
        exists (S n). split; [simpl; lia|]. split.
        -- destruct y; injection H as <- <-;
             change (take (S n) (c :: cs)) with ([c] ++ take n cs);
             rewrite state_after_app; reflexivity.
        -- intros rs ->. destruct y as [rs'|]; [|discriminate H].
           simpl. f_equal. eauto.
      * pose proof (check_failed_state r (state_after [c] st)) as Hs.
        rewrite Ec in Hs. simpl in Hs. subst st2. injection H as <- <-.
        exists 1. change (take 1 (c :: cs)) with [c]. repeat split; [simpl; lia | discriminate].
    + injection H as <- <-. exists 1. change (take 1 (c :: cs)) with [c].
      repeat split; [simpl; lia | discriminate].
Qed.

(** A call that reports failure ends the loop where it stands: the calls
    before it and the call itself were executed, the calls after it were
    not, and the host is as that call left it. *)
Lemma run_calls_failure (before after : list module_call) (c : module_call)
  (st : host_state) (e : exn) :
  all_succeed before (world st) ->
  reports_failure c (host_after before (world st)) e ->
  run_calls (before ++ c :: after) st
  = (Raise e, state_after (before ++ [c]) st).
Proof.
  revert st. induction before as [|b bs IH]; intros st Hok Hfail.
  - destruct Hfail as (r & Hr & Hf & ->). simpl in Hr.
    simpl app. cbn [run_calls]. unfold bind.
    rewrite execute_module_eq, Hr. unfold check_failed. rewrite Hf.
    reflexivity.
  - destruct Hok as [(r & Hr & Hf) Hrest].
    change ((b :: bs) ++ c :: after) with (b :: (bs ++ c :: after)).
    cbn [run_calls]. unfold bind.
    rewrite execute_module_eq, Hr. unfold check_failed. rewrite Hf.
    unfold ret. rewrite (IH (state_after [b] st)) by assumption.
    change (b :: bs) with ([b] ++ bs).
    rewrite !state_after_app. reflexivity.
Qed.

(** When every call succeeds the loop executes them all, in order. *)
Lemma run_calls_success (calls : list module_call) (st : host_state) :
  all_succeed calls (world st) ->
  exists rs, run_calls calls st = (Ok rs, state_after calls st) /\
             length rs = length calls.
Proof.
  revert st. induction calls as [|c cs IH]; intros st Hok.
  - exists []. rewrite state_after_nil. auto.
  - destruct Hok as [(r & Hr & Hf) Hrest].
    destruct (IH (state_after [c] st) Hrest) as (rs & Hrs & Hlen).
    exists (r :: rs). cbn [run_calls]. unfold bind.
    rewrite execute_module_eq, Hr. unfold check_failed. rewrite Hf.
    unfold ret. rewrite Hrs.
    change (c :: cs) with ([c] ++ cs). rewrite state_after_app.
    simpl. auto.
Qed.

(** ** The run *)

Lemma res_map_cons_Ok {A B : Type} (f : A -> res B) (a : A) (l : list A)
  (bs : list B) :
  res_map f (a :: l) = Ok bs <->
  exists b bs', f a = Ok b /\ res_map f l = Ok bs' /\ bs = b :: bs'.
Proof.
  simpl. destruct (f a) as [b|e]; simpl.
  - destruct (res_map f l) as [bs'|e]; simpl.
    + split; [intros [= <-]; eauto | intros (? & ? & [= <-] & [= <-] & ->); auto].
    + split; [discriminate | intros (? & ? & _ & H & _); discriminate H].
  - split; [discriminate | intros (? & ? & H & _); discriminate H].
Qed.

Lemma res_map_length {A B : Type} (f : A -> res B) (l : list A) (bs : list B) :
  res_map f l = Ok bs -> length bs = length l.
Proof.
  revert bs. induction l as [|a l IH]; intros bs H.
  - injection H as <-. reflexivity.
  - apply res_map_cons_Ok in H as (b & bs' & _ & H & ->). simpl. auto.
Qed.

(** The planned entries are the recognised source entries, one for one
    and in order, and each of them has its execution. *)
Lemma to_create_in_merger_order (les : list local_entry) (d : string)
  (owner group file_mode directory_mode : pyval) (tc0 tc : list entry) :
  _get_entries_to_create les d owner group file_mode directory_mode = Ok tc0 ->
  _set_file_contents tc0 = Ok tc ->
  Forall2 (plans d) (List.filter recognised les) tc /\
  List.map create_call tc = List.map Some (omap create_call tc).
Proof.
  unfold _get_entries_to_create, _set_file_contents.
  destruct (res_map _ les) as [pl|e] eqn:Hpl; simpl; [|discriminate].
  intros [= <-]. revert pl tc Hpl.
  induction les as [|le les IH]; intros pl tc Hpl Hc.
  - injection Hpl as <-. injection Hc as <-. split; constructor.
  - apply res_map_cons_Ok in Hpl as (oe & pl' & Hle & Hpl & ->).
    assert (Hcase :
      (recognised le = false /\ oe = None) \/
      (recognised le = true /\ exists e0, oe = Some e0 /\
         ((e_state e0 = "file" /\ exists src, e_src e0 = Some src) \/
          e_state e0 = "directory"))).
    { unfold planned_entry in Hle. unfold recognised.
      destruct (String.eqb_spec (le_state le) "file") as [Hs|Hs].
      - destruct (le_src le) as [src|]; [|discriminate Hle].
        injection Hle as <-. right. split; [reflexivity|].
        eexists. split; [reflexivity|]. left. simpl. eauto.
      - destruct (String.eqb_spec (le_state le) "directory") as [Hs'|Hs'].
        + injection Hle as <-. right. split; [reflexivity|].
          eexists. split; [reflexivity|]. right. assumption.
        + injection Hle as <-. left. auto. }
    destruct Hcase as [[Hrec ->]|(Hrec & e0 & -> & Hst)].
    + simpl. rewrite Hrec. simpl in Hc. eauto.
    + simpl in Hc. apply res_map_cons_Ok in Hc as (e & tc' & He & Hc & ->).
      destruct (IH pl' tc' Hpl Hc) as [IH1 IH2].
      simpl. rewrite Hrec. split.
      * constructor; [|assumption]. unfold plans. eauto 10.
      * assert (Hcall : exists c, create_call e = Some c).
        { unfold set_file_content in He. unfold create_call.
          destruct Hst as [[Hs (src & Hsrc)]|Hs]; rewrite Hs in He; simpl in He.
          - rewrite Hsrc in He.
            destruct (if e_template e0 then _ else _) as [content|];
              simpl in He; [|discriminate He].
            injection He as <-. simpl. eauto.
          - injection He as He. subst e. rewrite Hs. simpl. eauto. }
        destruct Hcall as [c Hcall]. simpl. rewrite Hcall. simpl.
        f_equal. assumption.
Qed.

(** What a completed [plan_run] has done. *)
Lemma plan_run_Ok (args : gmap string pyval) (st st1 : host_state) (p : plan) :
  plan_run args st = (Ok p, st1) ->
  exists ignore fr files tc0,
    _parse_path_list args "exclusive_ignore" = Ok ignore /\
    _get_local_entries (as_list (default PNone (args !! "src")))
      = Ok (local_entries p) /\
    dest_path (default PNone (args !! "dest")) = Ok (remote_path p) /\
    fst (execute (Find (remote_path p)) (world st)) = Ok fr /\
    st1 = state_after [Find (remote_path p)] st /\
    r_files fr = Some files /\
    remote_entries p = List.map remote_entry_of files /\
    _get_entries_to_create (local_entries p) (remote_path p)
      (default PNone (args !! "owner")) (default PNone (args !! "group"))
      (default PNone (args !! "file_mode"))
      (default PNone (args !! "directory_mode")) = Ok tc0 /\
    _set_file_contents tc0 = Ok (to_create p) /\
    _get_entries_to_delete (to_create p) (remote_entries p) (remote_path p)
      (default (PBool false) (args !! "exclusive")) ignore
      = Ok (to_delete p).
Proof.
  unfold plan_run, bind, lift, ret, _get_remote_entries.
  destruct (_parse_path_list args "exclusive_ignore") as [ignore|];
    [|discriminate].
  destruct (_get_local_entries _) as [les|]; [|discriminate].
  destruct (dest_path _) as [d|]; [|discriminate].
  unfold bind, raise, ret. rewrite execute_module_eq.
  destruct (fst (execute (Find d) (world st))) as [fr|] eqn:Efr; [|discriminate].
  destruct (r_files fr) as [files|] eqn:Efiles; [|discriminate].
  destruct (_get_entries_to_create _ _ _ _ _ _) as [tc0|] eqn:Etc0;
    [|discriminate].
  destruct (_set_file_contents tc0) as [tc|] eqn:Etc; [|discriminate].
  destruct (_get_entries_to_delete _ _ _ _ _) as [td|] eqn:Etd; [|discriminate].
  intros [= <- <-]. simpl. exists ignore, fr, files, tc0.
  repeat split; auto.
Qed.

(** [plan_run] asks the destination host for nothing but its listing. *)
Lemma plan_run_state (args : gmap string pyval) (st st1 : host_state)
  (x : res plan) :
  plan_run args st = (x, st1) ->
  st1 = st \/ exists d, st1 = state_after [Find d] st.
Proof.
  unfold plan_run, bind, lift, ret, _get_remote_entries.
  destruct (_parse_path_list args "exclusive_ignore") as [ignore|];
    [|intros [= _ <-]; auto].
  destruct (_get_local_entries _) as [les|]; [|intros [= _ <-]; auto].
  destruct (dest_path _) as [d|]; [|intros [= _ <-]; auto].
  unfold bind, raise, ret. rewrite execute_module_eq.
  destruct (fst (execute (Find d) (world st))) as [fr|];
    [|intros [= _ <-]; eauto].
  destruct (r_files fr) as [files|]; [|intros [= _ <-]; eauto].
  destruct (_get_entries_to_create _ _ _ _ _ _) as [tc0|];
    [|intros [= _ <-]; eauto].
  destruct (_set_file_contents tc0) as [tc|]; [|intros [= _ <-]; eauto].
  destruct (_get_entries_to_delete _ _ _ _ _) as [td|];
    intros [= _ <-]; eauto.
Qed.

Lemma run_calls_app (a b : list module_call) (st : host_state) :
  run_calls (a ++ b) st
  = (ra <-! run_calls a ;; rb <-! run_calls b ;; ret (ra ++ rb)) st.
Proof.
  revert st. induction a as [|c a IH]; intros st.
  - simpl. unfold bind, ret.
    destruct (run_calls b st) as [[rb|e] st']; reflexivity.
  - change ((c :: a) ++ b) with (c :: (a ++ b)). cbn [run_calls].
    unfold bind, ret. destruct (_execute_module c st) as [[r|e] st1];
      [|reflexivity].
    destruct (check_failed r st1) as [[[]|e] st2]; [|reflexivity].
    rewrite IH. unfold bind, ret.
    destruct (run_calls a st2) as [[ra|e] st3]; [|reflexivity].
    destruct (run_calls b st3) as [[rb|e] st4]; reflexivity.
Qed.

(** Applying a plan is one pass over its executions, deletes first. *)
Lemma apply_plan_run_calls (output : task_output) (p : plan) (st : host_state) :
  List.map create_call (to_create p) = List.map Some (omap create_call (to_create p)) ->
  apply_plan output p st
  = (rs <-! run_calls (plan_calls p) ;; lift (_build_output output rs)) st.
Proof.
  intros Hwf. unfold apply_plan, plan_calls, _create_entries.
  unfold bind at 3. rewrite run_calls_app. unfold bind, ret, lift.
  rewrite delete_entries_run_calls.
  destruct (run_calls (List.map delete_call (to_delete p)) st)
    as [[ra|e] st1]; [|reflexivity].
  rewrite (create_loop_run_calls _ _ _ _ Hwf).
  destruct (run_calls _ st1) as [[rb|e] st2]; reflexivity.
Qed.

Lemma missing_required_None (args : gmap string pyval) :
  missing_required args = None <->
  is_Some (args !! "src") /\ is_Some (args !! "dest").
Proof.
  unfold missing_required, REQUIRED_ARGS. simpl.
  destruct (bool_decide_reflect (is_Some (args !! "src"))) as [Hs|Hs]; simpl.
  - destruct (bool_decide_reflect (is_Some (args !! "dest"))) as [Hd|Hd]; simpl.
    + split; auto.
    + split; [discriminate | intros [_ H]; contradiction].
  - split; [discriminate | intros [H _]; contradiction].
Qed.

Lemma missing_required_Some (args : gmap string pyval) (arg : string) :
  missing_required args = Some arg ->
  In arg REQUIRED_ARGS /\ args !! arg = None.
Proof.
  unfold missing_required. intros H. apply find_some in H as [Hin Hb].
  split; [assumption|]. apply negb_true_iff, bool_decide_eq_false in Hb.
  destruct (args !! arg); [exfalso; apply Hb; eauto | reflexivity].
Qed.

(** A delete set that was computed is the listing, filtered. *)
Lemma delete_loop_Ok_filter (local_entries : list entry) (remote_path : string)
  (exclusive : pyval) (ignore : list PurePath)
  (remote_entries to_delete : list remote_entry) :
  delete_loop local_entries remote_path exclusive ignore remote_entries
  = Ok to_delete ->
  to_delete
  = List.filter
      (fun r => bool_decide
         (yields local_entries remote_path exclusive ignore r = Ok true))
      remote_entries.
Proof.
  revert to_delete. induction remote_entries as [|r rs IH]; intros td H.
  - injection H as <-. reflexivity.
  - simpl in H.
    destruct (yields local_entries remote_path exclusive ignore r)
      as [y|e] eqn:Hy; simpl in H; [|discriminate].
    destruct (delete_loop local_entries remote_path exclusive ignore rs)
      as [ys|e]; simpl in H; [|discriminate].
    injection H as <-. simpl. rewrite Hy, <- (IH ys eq_refl).
    destruct y.
    + rewrite bool_decide_eq_true_2 by reflexivity. reflexivity.
    + rewrite bool_decide_eq_false_2 by discriminate. reflexivity.
Qed.

Lemma create_calls_are_creates (entries : list entry) :
  Forall is_create (omap create_call entries).
Proof.
  induction entries as [|e es IH]; simpl; [constructor|].
  destruct (create_call e) as [c|] eqn:Hc; [|assumption].
  constructor; [|assumption]. unfold create_call in Hc.
  destruct (String.eqb (e_state e) "file").
  - destruct (e_content e); [|discriminate]. injection Hc as <-. exact I.
  - destruct (String.eqb (e_state e) "directory"); [|discriminate].
    injection Hc as <-. exact I.
Qed.

Lemma delete_calls_are_deletes (entries : list remote_entry) :
  Forall is_delete (List.map delete_call entries).
Proof. induction entries; simpl; constructor; [exact I | assumption]. Qed.

(** C5. The trace of every run is the listing of the destination (if the
    run got that far), then deletes, then creates: no delete follows a
    create.  When the run reached its plan, the deletes and creates
    executed are an initial segment of the plan's executions, which are
    the delete set in the order of the listing (the listing, filtered)
    followed by one execution per planned entry in the order in which
    the merger emitted the entries. *)
Theorem deletes_run_before_creates (output : task_output)
  (args : gmap string pyval) (st : host_state) :
  exists finds deletes creates,
    trace (snd (run output args st)) = trace st ++ finds ++ deletes ++ creates /\
    Forall is_find finds /\ Forall is_delete deletes /\
    Forall is_create creates /\
    (forall p st1,
       missing_required args = None ->
       plan_run args st = (Ok p, st1) ->
       (exists n, deletes ++ creates = take n (plan_calls p)) /\
       (exists keep, to_delete p = List.filter keep (remote_entries p)) /\
       Forall2 (plans (remote_path p))
               (List.filter recognised (local_entries p)) (to_create p) /\
       length (omap create_call (to_create p)) = length (to_create p)).
Proof.
  unfold run. destruct (missing_required args) as [arg|] eqn:Hreq.
  - exists [], [], []. simpl. rewrite app_nil_r.
    split; [reflexivity|]. do 3 (split; [constructor|]).
    intros p st1 Hnone. discriminate Hnone.
  - unfold bind. destruct (plan_run args st) as [[p|e] st1] eqn:Hp.
    + destruct (plan_run_Ok _ _ _ _ Hp)
        as (ignore & fr & files & tc0 & _ & _ & _ & _ & Hst1 & _ & _
            & Htc0 & Htc & Htd).
      destruct (to_create_in_merger_order _ _ _ _ _ _ _ _ Htc0 Htc)
        as [Horder Hwf].
      rewrite (apply_plan_run_calls _ _ _ Hwf). unfold bind, lift.
      destruct (run_calls (plan_calls p) st1) as [x st2] eqn:Hrun.
      destruct (run_calls_prefix _ _ _ _ Hrun) as (n & _ & -> & _).
      exists [Find (remote_path p)],
             (take n (List.map delete_call (to_delete p))),
             (take (n - length (List.map delete_call (to_delete p)))
                   (omap create_call (to_create p))).
      split; [|split; [|split; [|split]]].
      * destruct x; subst st1; simpl; unfold plan_calls;
          rewrite take_app, <- !app_assoc; reflexivity.
      * repeat constructor.
      * apply Forall_take, delete_calls_are_deletes.
      * apply Forall_take, create_calls_are_creates.
      * intros p' st1' _ [= <- <-]. split; [|split; [|split]].
        -- exists n. unfold plan_calls. rewrite take_app. reflexivity.
        -- unfold _get_entries_to_delete in Htd.
           destruct (res_map _ ignore) as [ig|]; simpl in Htd; [|discriminate].
           eexists. apply (delete_loop_Ok_filter _ _ _ _ _ _ Htd).
        -- assumption.
        -- apply (f_equal (@length _)) in Hwf.
           rewrite !length_map in Hwf. symmetry. exact Hwf.
    + destruct (plan_run_state _ _ _ _ Hp) as [->|[d ->]].
      * exists [], [], []. simpl. rewrite app_nil_r.
        split; [reflexivity|]. do 3 (split; [constructor|]).
        intros p st1 _ [=].
      * exists [Find d], [], []. simpl.
        split; [reflexivity|]. split; [repeat constructor|].
        do 2 (split; [constructor|]). intros p st1 _ [=].
Qed.

(** C6. When the run has its plan and a delete or create of the plan
    reports failure with a message, after the executions before it
    succeeded, the run raises [AnsibleError] with exactly that message;
    the trace holds the executions before the failed one and that one,
    none of those after it, and the host is as the failed execution left
    it: nothing is undone. *)
Theorem failed_operation_aborts_run (output : task_output)
  (args : gmap string pyval) (st st1 : host_state) (p : plan)
  (before after : list module_call) (c : module_call) (r : mresult)
  (msg : string) :
  missing_required args = None ->
  plan_run args st = (Ok p, st1) ->
  plan_calls p = before ++ c :: after ->
  all_succeed before (world st1) ->
  fst (execute c (host_after before (world st1))) = Ok r ->
  r_failed r = true ->
  r_msg r = Some msg ->
  run output args st
  = (Raise (AnsibleError msg),
     {| world := snd (execute c (host_after before (world st1)));
        trace := trace st1 ++ before ++ [c] |}).
Proof.
  intros Hreq Hp Hcalls Hok Hr Hf Hmsg.
  unfold run. rewrite Hreq. unfold bind. rewrite Hp.
  destruct (plan_run_Ok _ _ _ _ Hp)
    as (ignore & fr & files & tc0 & _ & _ & _ & _ & _ & _ & _
        & Htc0 & Htc & _).
  destruct (to_create_in_merger_order _ _ _ _ _ _ _ _ Htc0 Htc) as [_ Hwf].
  rewrite (apply_plan_run_calls _ _ _ Hwf). unfold bind.
  rewrite Hcalls.
  rewrite (run_calls_failure before after c st1 (AnsibleError msg) Hok).
  - f_equal. rewrite state_after_app. unfold state_after. simpl.
    rewrite <- app_assoc. reflexivity.
  - exists r. unfold failure. rewrite Hmsg. auto.
Qed.

(** ** Invalid arguments *)

Lemma PurePath_of_invalid (l : list pyval) :
  Exists invalid_path_value l -> exists e, res_map PurePath_of l = Raise e.
Proof.
  induction 1 as [v l Hv|v l _ IH]; simpl.
  - destruct v; try (eexists; reflexivity). exfalso. eapply Hv. reflexivity.
  - destruct (PurePath_of v); simpl; [|eauto].
    destruct IH as [e ->]. simpl. eauto.
Qed.

Lemma parse_path_list_invalid (args : gmap string pyval) :
  invalid_path_list args ->
  _parse_path_list args "exclusive_ignore"
  = Raise (AnsibleError
      "Argument 'exclusive_ignore' contains one or more values of an invalid type")
  \/ _parse_path_list args "exclusive_ignore"
     = Raise (AnsibleError "Argument 'exclusive_ignore' is of an invalid type").
Proof.
  intros (v & Hv & Hinv). unfold _parse_path_list. rewrite Hv. simpl.
  destruct (PurePath_of_invalid _ Hinv) as [e ->].
  destruct (is_list v); auto.
Qed.

(** C7. A run whose [src] or [dest] is missing, or whose
    [exclusive_ignore] holds a value that is not a path, fails as an
    invalid argument, and the state of the run is untouched: no
    execution was asked of the destination host, so nothing was deleted
    or created. *)
Theorem invalid_arguments_fail_before_any_execution (output : task_output)
  (args : gmap string pyval) (st : host_state) :
  args !! "src" = None \/ args !! "dest" = None \/ invalid_path_list args ->
  invalid_argument_failure (fst (run output args st)) /\
  snd (run output args st) = st.
Proof.
  intros H. unfold run.
  destruct (missing_required args) as [arg|] eqn:Hreq.
  - apply missing_required_Some in Hreq as [Hin _]. split; [|reflexivity].
    left. exists (missing_argument output arg), arg. simpl. auto.
  - apply missing_required_None in Hreq as [[s Hs] [d Hd]].
    destruct H as [H|[H|H]]; [congruence | congruence |].
    unfold bind, plan_run, bind, lift.
    destruct (parse_path_list_invalid _ H) as [-> | ->];
      (split; [right; auto | reflexivity]).
Qed.

(** ** An absolute ignore path outside the destination root *)

Lemma rewrite_ignore_foreign (remote_path : string) (i : PurePath) :
  pathlib.is_absolute i = true ->
  ~ equal_or_under i (pathlib.parse remote_path) ->
  rewrite_ignore remote_path i = Raise ValueError.
Proof.
  intros Habs Hnot. unfold rewrite_ignore. rewrite Habs.
  destruct (pathlib.relative_to i (pathlib.parse remote_path)) eqn:E;
    [|reflexivity].
  exfalso. apply Hnot, relative_to_is_Some. eauto.
Qed.

Lemma rewrite_ignore_raises (remote_path : string) (ignore : list PurePath)
  (i : PurePath) :
  In i ignore ->
  rewrite_ignore remote_path i = Raise ValueError ->
  res_map (rewrite_ignore remote_path) ignore = Raise ValueError.
Proof.
  intros Hin Hi. induction ignore as [|j l IH]; [destruct Hin|].
  simpl. destruct (rewrite_ignore remote_path j) as [r|e] eqn:Ej.
  - destruct Hin as [->|Hin]; [congruence|]. rewrite (IH Hin). reflexivity.
  - unfold rewrite_ignore in Ej. destruct (pathlib.is_absolute j);
      [|discriminate].
    destruct (pathlib.relative_to j (pathlib.parse remote_path));
      [discriminate|]. injection Ej as <-. reflexivity.
Qed.

(** C10. When [exclusive_ignore] holds an absolute path that is neither
    the destination root nor under it, and the run gets as far as the
    delete set (arguments, merge, listing, mapping and contents went
    through), the run raises Python's [ValueError], not an
    [AnsibleError], and the only execution on the destination host is its
    listing: the exception leaves before any delete or create. *)
Theorem foreign_absolute_ignore_raises_before_mutation (output : task_output)
  (args : gmap string pyval) (st : host_state)
  (ignore : list PurePath) (i : PurePath) (d : string)
  (les : list local_entry) (fr : mresult) (files : list found_entry)
  (tc0 tc : list entry) :
  missing_required args = None ->
  _parse_path_list args "exclusive_ignore" = Ok ignore ->
  In i ignore ->
  pathlib.is_absolute i = true ->
  ~ equal_or_under i (pathlib.parse d) ->
  _get_local_entries (as_list (default PNone (args !! "src"))) = Ok les ->
  args !! "dest" = Some (PStr d) ->
  fst (execute (Find d) (world st)) = Ok fr ->
  r_files fr = Some files ->
  _get_entries_to_create les d
    (default PNone (args !! "owner")) (default PNone (args !! "group"))
    (default PNone (args !! "file_mode"))
    (default PNone (args !! "directory_mode")) = Ok tc0 ->
  _set_file_contents tc0 = Ok tc ->
  run output args st
  = (Raise ValueError,
     {| world := snd (execute (Find d) (world st));
        trace := trace st ++ [Find d] |}).
Proof.
  intros Hreq Hig Hin Habs Hnot Hles Hd Hfr Hfiles Htc0 Htc.
  unfold run. rewrite Hreq.
  unfold bind, plan_run, bind, lift, ret, _get_remote_entries.
  rewrite Hig, Hles, Hd. simpl. unfold bind, ret.
  rewrite execute_module_eq, Hfr, Hfiles, Htc0, Htc.
  unfold _get_entries_to_delete.
  rewrite (rewrite_ignore_raises d ignore i Hin
             (rewrite_ignore_foreign d i Habs Hnot)).
  reflexivity.
Qed.

(** The same, whatever the earlier stages do: with such an ignore path
    no run executes a delete or a create, and no run returns a result of
    an applied plan. *)
Lemma foreign_absolute_ignore_never_mutates (output : task_output)
  (args : gmap string pyval) (st : host_state)
  (ignore : list PurePath) (i : PurePath) (d : string) :
  missing_required args = None ->
  _parse_path_list args "exclusive_ignore" = Ok ignore ->
  In i ignore ->
  pathlib.is_absolute i = true ->
  args !! "dest" = Some (PStr d) ->
  ~ equal_or_under i (pathlib.parse d) ->
  (exists e, fst (run output args st) = Raise e) /\
  (snd (run output args st) = st \/
   snd (run output args st) = state_after [Find d] st).
Proof.
  intros Hreq Hig Hin Habs Hd Hnot. unfold run. rewrite Hreq. unfold bind.
  destruct (plan_run args st) as [[p|e] st1] eqn:Hp.
  - exfalso. destruct (plan_run_Ok _ _ _ _ Hp)
      as (ignore' & fr & files & tc0 & Hig' & _ & Hd' & _ & _ & _ & _
          & _ & _ & Htd).
    rewrite Hd in Hd'. injection Hd' as Hd'. rewrite Hig in Hig'.
    injection Hig' as <-. unfold _get_entries_to_delete in Htd.
    rewrite <- Hd' in Htd.
    rewrite (rewrite_ignore_raises d ignore i Hin
               (rewrite_ignore_foreign d i Habs Hnot)) in Htd.
    discriminate Htd.
  - split; [eauto|]. simpl.
    revert Hp. unfold plan_run, bind, lift, ret, _get_remote_entries.
    rewrite Hig. destruct (_get_local_entries _); [|intros [= _ <-]; auto].
    rewrite Hd. simpl. unfold bind, raise, ret. rewrite execute_module_eq.
    destruct (fst (execute (Find d) (world st))) as [fr|];
      [|intros [= _ <-]; auto].
    destruct (r_files fr); [|intros [= _ <-]; auto].
    destruct (_get_entries_to_create _ _ _ _ _ _); [|intros [= _ <-]; auto].
    destruct (_set_file_contents _); [|intros [= _ <-]; auto].
    destruct (_get_entries_to_delete _ _ _ _ _); intros [= _ <-]; auto.
Qed.

(** ** Strings and [posixpath] on normalised paths *)

Lemma append_nil_r (s : string) : s +:+ "" = s.
Proof. induction s as [|c s IH]; simpl; [reflexivity | f_equal; exact IH]. Qed.

Lemma append_assoc (a b c : string) : (a +:+ b) +:+ c = a +:+ (b +:+ c).
Proof. induction a as [|x a IH]; simpl; [reflexivity | f_equal; exact IH]. Qed.

Lemma length_append (a b : string) :
  String.length (a +:+ b) = String.length a + String.length b.
Proof. induction a as [|x a IH]; simpl; [reflexivity | f_equal; exact IH]. Qed.


Lemma split_sep_not_nil (s : string) : Str.split_sep s <> [].
Proof.
  induction s as [|c s IH]; simpl; [discriminate|].
  destruct (Ascii.eqb c "/"); [discriminate|].
  destruct (Str.split_sep s); discriminate.
Qed.

Lemma split_sep_app (a b : string) :
  Str.split_sep (a +:+ "/" +:+ b) = Str.split_sep a ++ Str.split_sep b.
Proof.
  induction a as [|c a IH]; simpl in *; [reflexivity|].
  rewrite IH. destruct (Ascii.eqb c "/"); [reflexivity|].
  pose proof (split_sep_not_nil a) as Hne.
  destruct (Str.split_sep a) as [|h t]; [contradiction | reflexivity].
Qed.

Lemma join_split_sep (s : string) : Str.join_sep (Str.split_sep s) = s.
Proof.
  induction s as [|c s IH]; simpl; [reflexivity|].
  pose proof (split_sep_not_nil s) as Hne.
  destruct (Ascii.eqb_spec c "/") as [->|Hc].
  - unfold Str.join_sep in *. simpl.
    destruct (Str.split_sep s) as [|h t]; [contradiction|].
    simpl. f_equal. exact IH.
  - destruct (Str.split_sep s) as [|h t]; [contradiction|].
    unfold Str.join_sep in *. simpl in *.
    destruct t; simpl in *; f_equal; exact IH.
Qed.

Lemma join_sep_app (a b : list string) :
  a <> [] -> b <> [] ->
  Str.join_sep (a ++ b) = Str.join_sep a +:+ "/" +:+ Str.join_sep b.
Proof.
  intros Ha Hb. induction a as [|x a IH]; [contradiction|].
  destruct a as [|y a].
  - simpl. destruct b; [contradiction | reflexivity].
  - change (Str.join_sep ((x :: y :: a) ++ b))
      with (x +:+ "/" +:+ Str.join_sep ((y :: a) ++ b)).
    rewrite IH by discriminate.
    change (Str.join_sep (x :: y :: a))
      with (x +:+ "/" +:+ Str.join_sep (y :: a)).
    rewrite !append_assoc. reflexivity.
Qed.

(** A clean path is not empty and does not start with a separator. *)
Lemma clean_rel_head (p : string) :
  clean_rel p = true ->
  p <> "" /\ Str.leading_seps p = 0 /\ Str.startswith p "/" = false.
Proof.
  unfold clean_rel. destruct p as [|c p]; simpl; [discriminate|].
  destruct (Ascii.eqb_spec c "/") as [->|Hc]; simpl; [discriminate|].
  intros _. repeat split. discriminate.
Qed.

Lemma leading_seps_app (a b : string) :
  a <> "" -> Str.leading_seps a = 0 -> Str.leading_seps (a +:+ b) = 0.
Proof.
  destruct a as [|c a]; [contradiction|]. simpl.
  destruct (Ascii.eqb c "/"); [discriminate | reflexivity].
Qed.

Lemma clean_rel_app (a b : string) :
  clean_rel a = true -> clean_rel b = true ->
  clean_rel (a +:+ "/" +:+ b) = true.
Proof.
  unfold clean_rel. rewrite split_sep_app, forallb_app.
  intros -> ->. reflexivity.
Qed.

(** A path that ends with a separator has an empty last component. *)
Lemma endswith_sep_last (s : string) :
  Str.endswith s "/" = true -> List.last (Str.split_sep s) "" = "".
Proof.
  induction s as [|c s IH]; simpl; [discriminate|].
  destruct s as [|c' s'].
  - simpl. destruct (Ascii.eqb_spec c "/") as [->|Hc]; [reflexivity|].
    rewrite orb_false_r. intros H.
    destruct (Ascii.eqb_spec c "/"); [contradiction | discriminate].
  - intros H.
    assert (Hs : Str.endswith (String c' s') "/" = true).
    { destruct (Ascii.eqb c "/"); simpl in H; exact H. }
    specialize (IH Hs).
    pose proof (split_sep_not_nil (String c' s')) as Hne.
    destruct (Ascii.eqb c "/").
    + destruct (Str.split_sep (String c' s')); [contradiction | exact IH].
    + destruct (Str.split_sep (String c' s')) as [|h t] eqn:E; [contradiction|].
      destruct t as [|h' t'].
      * simpl in IH. subst h.
        pose proof (join_split_sep (String c' s')) as Hj.
        rewrite E in Hj. discriminate Hj.
      * exact IH.
Qed.

Lemma clean_rel_last (p : string) :
  clean_rel p = true -> Str.endswith p "/" = false.
Proof.
  intros Hc. destruct (Str.endswith p "/") eqn:E; [|reflexivity].
  apply endswith_sep_last in E. unfold clean_rel in Hc.
  pose proof (split_sep_not_nil p) as Hne.
  assert (Hl : plainb (List.last (Str.split_sep p) "") = true).
  { rewrite forallb_forall in Hc. apply Hc.
    destruct (Str.split_sep p) as [|h t]; [contradiction|].
    apply (exists_last (l := h :: t)) in Hne as (l' & a & ->).
    rewrite last_last. apply in_or_app. right. left. reflexivity. }
  rewrite E in Hl. discriminate Hl.
Qed.

Lemma norm_step_plain (init : nat) (acc : list string) (c : string) :
  plainb c = true -> posixpath.norm_step init acc c = acc ++ [c].
Proof.
  unfold plainb, posixpath.norm_step. intros H.
  apply andb_true_iff in H as [H H3]. apply andb_true_iff in H as [H1 H2].
  apply negb_true_iff in H1, H2. rewrite H1, H2, H3. reflexivity.
Qed.

Lemma norm_fold_plain (init : nat) (cs acc : list string) :
  forallb plainb cs = true ->
  List.fold_left (posixpath.norm_step init) cs acc = acc ++ cs.
Proof.
  revert acc. induction cs as [|c cs IH]; intros acc H; simpl.
  - rewrite app_nil_r. reflexivity.
  - simpl in H. apply andb_true_iff in H as [Hc Hcs].
    rewrite norm_step_plain by assumption. rewrite IH by assumption.
    rewrite <- app_assoc. reflexivity.
Qed.

(** [normpath] leaves a clean path as it is. *)
Lemma normpath_clean (p : string) :
  clean_rel p = true -> posixpath.normpath p = p.
Proof.
  intros Hc. destruct (clean_rel_head p Hc) as (Hne & Hlead & _).
  unfold posixpath.normpath.
  destruct (String.eqb_spec p ""); [contradiction|].
  unfold posixpath.initial_slashes. rewrite Hlead.
  unfold posixpath.norm_comps. rewrite norm_fold_plain by exact Hc.
  unfold posixpath.render. simpl. rewrite join_split_sep.
  destruct (String.eqb_spec p ""); [contradiction | reflexivity].
Qed.

(** [normpath] of a clean path below the root, followed by more clean
    components. *)
Lemma normpath_abs_clean (d0 : string) (tail : list string) :
  clean_rel d0 = true -> forallb plainb tail = true ->
  posixpath.render 1
    (posixpath.norm_comps 1 (("" :: Str.split_sep d0) ++ tail))
  = "/" +:+ Str.join_sep (Str.split_sep d0 ++ tail).
Proof.
  intros Hd Ht. unfold posixpath.norm_comps. simpl List.fold_left.
  change (posixpath.norm_step 1 [] "") with (@nil string).
  rewrite norm_fold_plain
    by (rewrite forallb_app; unfold clean_rel in Hd; rewrite Hd, Ht; reflexivity).
  reflexivity.
Qed.

Lemma initial_slashes_abs (d0 rest : string) :
  clean_rel d0 = true -> posixpath.initial_slashes ("/" +:+ d0 +:+ rest) = 1.
Proof.
  intros Hd. destruct (clean_rel_head d0 Hd) as (Hne & Hlead & _).
  unfold posixpath.initial_slashes. simpl.
  rewrite leading_seps_app by assumption. reflexivity.
Qed.

Lemma join_abs_clean (d0 p : string) :
  clean_rel d0 = true -> Str.startswith p "/" = false ->
  posixpath.join ("/" +:+ d0) p = "/" +:+ d0 +:+ "/" +:+ p.
Proof.
  intros Hd Hp. unfold posixpath.join, posixpath.sep. rewrite Hp.
  assert (He : Str.endswith ("/" +:+ d0) "/" = false).
  { simpl. pose proof (clean_rel_last d0 Hd) as Hl.
    destruct (clean_rel_head d0 Hd) as (Hne & _ & _).
    destruct d0 as [|c d0]; [contradiction|]. simpl in *. exact Hl. }
  rewrite He. reflexivity.
Qed.

(** A destination root [/d0] joined with a clean path [p] and
    normalised is the plain concatenation [/d0/p]. *)
Lemma normpath_join_abs_clean (d0 p : string) :
  clean_rel d0 = true -> clean_rel p = true ->
  posixpath.normpath (posixpath.join ("/" +:+ d0) p)
  = "/" +:+ d0 +:+ "/" +:+ p.
Proof.
  intros Hd Hp. destruct (clean_rel_head p Hp) as (_ & _ & Hstart).
  rewrite join_abs_clean by assumption.
  unfold posixpath.normpath.
  change (String.eqb ("/" +:+ d0 +:+ "/" +:+ p) "") with false.
  rewrite initial_slashes_abs by assumption.
  change (Str.split_sep ("/" +:+ d0 +:+ "/" +:+ p))
    with ("" :: Str.split_sep (d0 +:+ "/" +:+ p)).
  rewrite split_sep_app.
  change ("" :: Str.split_sep d0 ++ Str.split_sep p)
    with (("" :: Str.split_sep d0) ++ Str.split_sep p).
  rewrite normpath_abs_clean by assumption.
  rewrite <- split_sep_app, join_split_sep. reflexivity.
Qed.

(** The same root joined with ["."], the normalised empty path, is the
    root itself. *)
Lemma normpath_join_abs_dot (d0 : string) :
  clean_rel d0 = true ->
  posixpath.normpath (posixpath.join ("/" +:+ d0) ".") = "/" +:+ d0.
Proof.
  intros Hd. rewrite join_abs_clean by (assumption || reflexivity).
  unfold posixpath.normpath.
  change (String.eqb ("/" +:+ d0 +:+ "/" +:+ ".") "") with false.
  rewrite initial_slashes_abs by assumption.
  change (Str.split_sep ("/" +:+ d0 +:+ "/" +:+ "."))
    with ("" :: Str.split_sep (d0 +:+ "/" +:+ ".")).
  rewrite split_sep_app. unfold posixpath.norm_comps.
  change (List.fold_left (posixpath.norm_step 1)
            ("" :: Str.split_sep d0 ++ Str.split_sep ".") [])
    with (List.fold_left (posixpath.norm_step 1)
            (Str.split_sep d0 ++ ["."]) []).
  rewrite fold_left_app, (norm_fold_plain 1 (Str.split_sep d0) []) by exact Hd.
  change (List.fold_left (posixpath.norm_step 1) ["."] ([] ++ Str.split_sep d0))
    with (Str.split_sep d0).
  unfold posixpath.render. rewrite join_split_sep. reflexivity.
Qed.

(** ** The mapper *)

Lemma split_sep_component (s c : string) :
  In c (Str.split_sep s) -> Str.split_sep c = [c].
Proof.
  revert c. induction s as [|x s IH]; simpl; intros c Hin.
  - destruct Hin as [<-|[]]. reflexivity.
  - destruct (Ascii.eqb x "/") eqn:Ex.
    + destruct Hin as [<-|Hin]; [reflexivity | auto].
    + pose proof (split_sep_not_nil s) as Hne.
      destruct (Str.split_sep s) as [|h t]; [contradiction|].
      destruct Hin as [<-|Hin]; [|apply IH; right; exact Hin].
      simpl. rewrite Ex. rewrite (IH h) by (left; reflexivity). reflexivity.
Qed.

Lemma basename_clean (r : string) :
  plainb (posixpath.basename r) = true ->
  clean_rel (posixpath.basename r) = true.
Proof.
  intros Hp. unfold clean_rel.
  rewrite (split_sep_component r (posixpath.basename r)).
  - simpl. rewrite Hp. reflexivity.
  - unfold posixpath.basename. pose proof (split_sep_not_nil r) as Hne.
    destruct (Str.split_sep r) as [|h t]; [contradiction|].
    apply (exists_last (l := h :: t)) in Hne as (l' & a & ->).
    rewrite last_last. apply in_or_app. right. left. reflexivity.
Qed.

(** The destination root of an entry under [/d0]: [/d0] itself when the
    source root ends with a separator, [/d0/basename] otherwise. *)
Lemma destination_root_abs (d0 : string) (le : local_entry) :
  clean_rel d0 = true ->
  (Str.endswith (le_root le) posixpath.sep = false ->
   plainb (posixpath.basename (le_root le)) = true) ->
  exists d1,
    clean_rel d1 = true /\
    destination_root ("/" +:+ d0) le = "/" +:+ d1 /\
    d1 = if Str.endswith (le_root le) posixpath.sep then d0
         else d0 +:+ "/" +:+ posixpath.basename (le_root le).
Proof.
  intros Hd Hb. unfold destination_root.
  destruct (Str.endswith (le_root le) posixpath.sep); cbn [negb].
  - exists d0. auto.
  - specialize (Hb eq_refl). apply basename_clean in Hb.
    exists (d0 +:+ "/" +:+ posixpath.basename (le_root le)).
    split; [apply clean_rel_app; assumption|]. split; [|reflexivity].
    rewrite join_abs_clean by (assumption || apply clean_rel_head, Hb).
    reflexivity.
Qed.

(** C9. Under a destination root [/d0], an entry whose source root ends
    with a separator is mapped to [/d0/path]; an entry whose source root
    does not is mapped to [/d0/basename(root)/path], the basename being
    an extra segment.  The entry of a source directory itself (its path
    is empty) is mapped to [/d0], respectively [/d0/basename(root)]. *)
Theorem root_separator_decides_destination (d0 : string) (le : local_entry) :
  clean_rel d0 = true ->
  (Str.endswith (le_root le) posixpath.sep = false ->
   plainb (posixpath.basename (le_root le)) = true) ->
  (clean_rel (le_path le) = true ->
   destination_path ("/" +:+ d0) le
   = if Str.endswith (le_root le) posixpath.sep
     then "/" +:+ d0 +:+ "/" +:+ le_path le
     else "/" +:+ d0 +:+ "/" +:+ posixpath.basename (le_root le)
              +:+ "/" +:+ le_path le) /\
  (le_path le = "" ->
   destination_path ("/" +:+ d0) le
   = if Str.endswith (le_root le) posixpath.sep
     then "/" +:+ d0
     else "/" +:+ d0 +:+ "/" +:+ posixpath.basename (le_root le)).
Proof.
  intros Hd Hb.
  destruct (destination_root_abs d0 le Hd Hb) as (d1 & Hd1 & Hroot & Heq).
  unfold destination_path. rewrite Hroot. split.
  - intros Hp. rewrite (normpath_clean _ Hp).
    rewrite normpath_join_abs_clean by assumption. subst d1.
    destruct (Str.endswith (le_root le) posixpath.sep);
      rewrite ?append_assoc; reflexivity.
  - intros ->. change (posixpath.normpath "") with ".".
    rewrite normpath_join_abs_dot by assumption. subst d1.
    destruct (Str.endswith (le_root le) posixpath.sep); reflexivity.
Qed.

Lemma substring_prefix (a b : string) :
  String.substring 0 (String.length a) (a +:+ b) = a.
Proof.
  induction a as [|c a IH]; simpl.
  - destruct b; reflexivity.
  - f_equal. exact IH.
Qed.

Lemma drop_end_app (a suf : string) :
  Str.drop_end (String.length suf) (a +:+ suf) = a.
Proof.
  unfold Str.drop_end. rewrite length_append.
  replace (String.length a + String.length suf - String.length suf)
    with (String.length a) by lia.
  apply substring_prefix.
Qed.

Lemma endswith_split (s suf : string) :
  Str.endswith s suf = true <-> exists pre, s = pre +:+ suf.
Proof.
  induction s as [|c s IH].
  - change (Str.endswith "" suf) with (String.eqb "" suf || false).
    rewrite orb_false_r, String.eqb_eq. split.
    + intros <-. exists "". reflexivity.
    + intros [pre H]. destruct pre; simpl in H; [auto | discriminate].
  - change (Str.endswith (String c s) suf)
      with (String.eqb (String c s) suf || Str.endswith s suf).
    rewrite orb_true_iff, String.eqb_eq, IH. split.
    + intros [<-|[pre ->]]; [exists ""; reflexivity|].
      exists (String c pre). reflexivity.
    + intros [pre H]. destruct pre as [|c' pre]; simpl in H; [auto|].
      injection H as _ ->. right. eauto.
Qed.

Lemma has_sep_app (a b : string) : has_sep (a +:+ "/" +:+ b) = true.
Proof.
  induction a as [|c a IH]; simpl in *; [reflexivity|].
  rewrite IH. apply orb_true_r.
Qed.

Lemma has_sep_suffix (pre suf : string) :
  has_sep suf = true -> has_sep (pre +:+ suf) = true.
Proof.
  intros H. induction pre as [|c pre IH]; simpl; [exact H|].
  rewrite IH. apply orb_true_r.
Qed.

(** A suffix without separator of [a/p] is a suffix of [p]. *)
Lemma endswith_below (a p suf : string) :
  has_sep suf = false ->
  Str.endswith (a +:+ "/" +:+ p) suf = Str.endswith p suf.
Proof.
  intros Hs.
  assert (Hne : forall x, String.eqb (x +:+ "/" +:+ p) suf = false).
  { intros x. apply String.eqb_neq. intros Heq.
    pose proof (has_sep_app x p) as H. rewrite Heq in H. congruence. }
  induction a as [|c a IH].
  - change ("" +:+ "/" +:+ p) with (String "/" p).
    change (Str.endswith (String "/" p) suf)
      with (String.eqb (String "/" p) suf || Str.endswith p suf).
    rewrite (Hne "" : String.eqb (String "/" p) suf = false). reflexivity.
  - change (Str.endswith (String c a +:+ "/" +:+ p) suf)
      with (String.eqb (String c (a +:+ "/" +:+ p)) suf
            || Str.endswith (a +:+ "/" +:+ p) suf).
    rewrite (Hne (String c a)
             : String.eqb (String c (a +:+ "/" +:+ p)) suf = false), IH.
    reflexivity.
Qed.

(** The destination of a planned entry, from its destination path: the
    path itself, or the path without the template suffix. *)
Lemma planned_entry_dest (d : string) (o g fm dm : pyval) (le : local_entry)
  (e : entry) :
  planned_entry d o g fm dm le = Ok (Some e) ->
  (e_template e = false /\ e_dest e = destination_path d le) \/
  (e_template e = true /\ le_state le = "file" /\
   destination_path d le = e_dest e +:+ TEMPLATE_EXTENSION).
Proof.
  unfold planned_entry.
  destruct (String.eqb_spec (le_state le) "file") as [Hs|Hs].
  - destruct (le_src le); [|discriminate].
    destruct (Str.endswith (destination_path d le) TEMPLATE_EXTENSION) eqn:E;
      intros [= <-]; cbn [e_template e_dest]; [|left; auto].
    right. apply endswith_split in E as [pre E]. rewrite E.
    change 3 with (String.length TEMPLATE_EXTENSION).
    rewrite drop_end_app. auto.
  - destruct (String.eqb (le_state le) "directory"); [|discriminate].
    intros [= <-]. left. auto.
Qed.

(** The same for any destination root and any entry, in the words of
    the mapper: the root is joined with the entry's normalised path,
    after the basename of the source root when that root does not end
    with a separator. *)
Lemma destination_path_by_root (remote_path : string) (le : local_entry) :
  destination_path remote_path le
  = posixpath.normpath
      (posixpath.join
         (if Str.endswith (le_root le) posixpath.sep then remote_path
          else posixpath.join remote_path (posixpath.basename (le_root le)))
         (posixpath.normpath (le_path le))).
Proof.
  unfold destination_path, destination_root.
  destruct (Str.endswith (le_root le) posixpath.sep); reflexivity.
Qed.

(** ** The merger *)

(** The loop appends, per source path, what [local_entries_of] gives. *)
Lemma local_entries_loop_flat (paths todo : list string) (acc : list local_entry) :
  local_entries_loop paths todo acc
  = acc ++ List.flat_map (local_entries_of paths) todo.
Proof.
  revert acc. induction todo as [|lp todo IH]; intros acc; simpl.
  - rewrite app_nil_r. reflexivity.
  - rewrite IH, <- app_assoc. reflexivity.
Qed.


Lemma flat_map_directories (all todo : list string) :
  (forall lp, In lp todo ->
     path_exists (path_dwim_relative lp) && S_ISREG (path_dwim_relative lp) = false) ->
  List.flat_map (local_entries_of all) todo
  = List.flat_map (fun lp => directory_root_entry lp :: filetree_run all) todo.
Proof.
  induction todo as [|lp l IH]; intros Hdir; simpl; [reflexivity|].
  unfold local_entries_of at 1. rewrite Hdir by (left; reflexivity).
  rewrite IH by (intros lp' Hin; apply Hdir; right; exact Hin).
  reflexivity.
Qed.

(** Source directories only: every one of them contributes its own
    entry followed by the lookup over all of the source paths. *)
Lemma directory_roots_repeat_lookup (paths : list string) :
  (forall lp, In lp paths ->
     path_exists (path_dwim_relative lp) && S_ISREG (path_dwim_relative lp) = false) ->
  _get_local_entries (List.map PStr paths)
  = Ok (List.flat_map
          (fun lp => directory_root_entry lp :: filetree_run paths) paths).
Proof.
  intros Hdir. unfold _get_local_entries.
  assert (Hmap : res_map source_path (List.map PStr paths) = Ok paths).
  { clear Hdir. induction paths as [|lp l IH]; simpl; [reflexivity|].
    rewrite IH. reflexivity. }
  rewrite Hmap. simpl. rewrite local_entries_loop_flat. simpl.
  rewrite flat_map_directories by exact Hdir. reflexivity.
Qed.



(** Under a destination root [/d1], an entry with a clean path is
    planned at [/d1/] followed by its planned relative path. *)
Lemma planned_entry_dest_clean (d0 d1 : string) (o g fm dm : pyval)
  (le : local_entry) (e : entry) :
  clean_rel d1 = true ->
  clean_rel (le_path le) = true ->
  destination_root ("/" +:+ d0) le = "/" +:+ d1 ->
  planned_entry ("/" +:+ d0) o g fm dm le = Ok (Some e) ->
  e_dest e = ("/" +:+ d1 +:+ "/") +:+ planned_relative_path le.
Proof.
  intros Hd1 Hp Hroot Hplan.
  assert (Hdest : destination_path ("/" +:+ d0) le
                  = ("/" +:+ d1 +:+ "/") +:+ le_path le).
  { unfold destination_path. rewrite Hroot, (normpath_clean _ Hp).
    rewrite normpath_join_abs_clean by assumption.
    simpl. rewrite !append_assoc. reflexivity. }
  assert (Hends : Str.endswith (destination_path ("/" +:+ d0) le) TEMPLATE_EXTENSION
                  = Str.endswith (le_path le) TEMPLATE_EXTENSION).
  { rewrite Hdest.
    replace (("/" +:+ d1 +:+ "/") +:+ le_path le)
      with (("/" +:+ d1) +:+ "/" +:+ le_path le)
      by (simpl; rewrite !append_assoc; reflexivity).
    apply endswith_below. reflexivity. }
  unfold planned_entry in Hplan. cbv zeta in Hplan.
  unfold planned_relative_path. rewrite Hends in Hplan.
  set (d := "/" +:+ d0) in *. set (P := "/" +:+ d1 +:+ "/") in *.
  clearbody d P. rewrite Hdest in Hplan.
  destruct (String.eqb (le_state le) "file").
  - destruct (le_src le); [|discriminate Hplan].
    injection Hplan as <-. cbn [e_dest andb].
    destruct (Str.endswith (le_path le) TEMPLATE_EXTENSION) eqn:E;
      [|reflexivity].
    apply endswith_split in E as [q E]. rewrite E, <- append_assoc.
    change 3 with (String.length TEMPLATE_EXTENSION).
    rewrite !drop_end_app. reflexivity.
  - destruct (String.eqb (le_state le) "directory"); [|discriminate Hplan].
    injection Hplan as <-. reflexivity.
Qed.





(** * Further properties *)

(** ** The result of the task *)

Lemma add_result_Ok (output acc : task_output) (r : mresult) :
  add_result output r = Ok acc ->
  o_failed acc = o_failed output /\ o_msg acc = o_msg output /\
  o_deleted_entries acc
  = o_deleted_entries output ++ List.filter (has_state "absent") [r] /\
  o_managed_directories acc
  = o_managed_directories output ++ List.filter (has_state "directory") [r] /\
  o_managed_files acc
  = o_managed_files output ++ List.filter (has_state "file") [r] /\
  o_changed acc
  = Some (default false (o_changed output) || reports_change r) /\
  o_diff acc
  = if has_diff r then Some (default [] (o_diff output) ++ diffs_of r)
    else o_diff output.
Proof.
  unfold add_result, has_state, reports_change, has_diff, diffs_of.
  destruct (default false (o_changed output)) eqn:Hc.
  - intros [= <-]. cbn -[bool_decide].
    repeat split;
      try (case_bool_decide; [reflexivity | rewrite app_nil_r; reflexivity]).
    destruct (r_diff r) as [[d|ds]|]; reflexivity.
  - destruct (r_changed r) as [c|] eqn:Hr; [|discriminate].
    intros [= <-]. cbn -[bool_decide].
    repeat split;
      try (case_bool_decide; [reflexivity | rewrite app_nil_r; reflexivity]).
    + destruct c; reflexivity.
    + destruct (r_diff r) as [[d|ds]|]; reflexivity.
Qed.

Lemma no_diff_no_records (rs : list mresult) :
  existsb has_diff rs = false -> List.flat_map diffs_of rs = [].
Proof.
  induction rs as [|r rs IH]; [reflexivity|]. simpl.
  unfold has_diff at 1. unfold diffs_of at 1.
  destruct (r_diff r); [discriminate|]. exact IH.
Qed.

Lemma build_output_loop_Ok (output o : task_output) (rs : list mresult) :
  build_output_loop output rs = Ok o ->
  o_failed o = o_failed output /\ o_msg o = o_msg output /\
  o_deleted_entries o
  = o_deleted_entries output ++ List.filter (has_state "absent") rs /\
  o_managed_directories o
  = o_managed_directories output ++ List.filter (has_state "directory") rs /\
  o_managed_files o
  = o_managed_files output ++ List.filter (has_state "file") rs /\
  o_changed o
  = match rs with
    | [] => o_changed output
    | _ => Some (default false (o_changed output) || existsb reports_change rs)
    end /\
  o_diff o
  = if existsb has_diff rs
    then Some (default [] (o_diff output) ++ List.flat_map diffs_of rs)
    else o_diff output.
Proof.
  revert output. induction rs as [|r rs IH]; intros output H.
  - injection H as <-. simpl. rewrite !app_nil_r. repeat split; reflexivity.
  - simpl in H. destruct (add_result output r) as [acc|] eqn:Ha;
      simpl in H; [|discriminate].
    apply add_result_Ok in Ha as (A1 & A2 & A3 & A4 & A5 & A6 & A7).
    apply IH in H as (B1 & B2 & B3 & B4 & B5 & B6 & B7).
    rewrite B1, B2, B3, B4, B5, B6, B7, A1, A2, A3, A4, A5, A6, A7.
    clear. repeat split.
    + simpl. destruct (has_state "absent" r); simpl;
        rewrite <- ?app_assoc, ?app_nil_r; reflexivity.
    + simpl. destruct (has_state "directory" r); simpl;
        rewrite <- ?app_assoc, ?app_nil_r; reflexivity.
    + simpl. destruct (has_state "file" r); simpl;
        rewrite <- ?app_assoc, ?app_nil_r; reflexivity.
    + destruct rs; simpl; [rewrite orb_false_r | rewrite !orb_assoc];
        reflexivity.
    + simpl. destruct (has_diff r) eqn:Hd; simpl.
      * destruct (existsb has_diff rs) eqn:Hrs.
        -- rewrite <- app_assoc. reflexivity.
        -- rewrite (no_diff_no_records rs Hrs), app_nil_r. reflexivity.
      * assert (Hnil : diffs_of r = []).
        { unfold has_diff in Hd. unfold diffs_of.
          destruct (r_diff r); [discriminate | reflexivity]. }
        rewrite Hnil. reflexivity.
Qed.

(** X1. [_build_output] sorts the results by their [state], keeping their
    order, and starts from empty lists whatever [output] held. *)
Theorem build_output_classifies (output o : task_output) (rs : list mresult) :
  _build_output output rs = Ok o ->
  o_deleted_entries o = List.filter (has_state "absent") rs /\
  o_managed_directories o = List.filter (has_state "directory") rs /\
  o_managed_files o = List.filter (has_state "file") rs /\
  o_failed o = o_failed output /\ o_msg o = o_msg output.
Proof.
  unfold _build_output. intros H.
  apply build_output_loop_Ok in H as (B1 & B2 & B3 & B4 & B5 & _ & _).
  simpl in *. auto.
Qed.

(** X2. The task reports a change exactly when it had one already or some
    result reports one; without results [changed] is left as it was. *)
Theorem build_output_changed (output o : task_output) (rs : list mresult) :
  _build_output output rs = Ok o ->
  o_changed o
  = match rs with
    | [] => o_changed output
    | _ => Some (default false (o_changed output) || existsb reports_change rs)
    end.
Proof.
  unfold _build_output. intros H.
  apply build_output_loop_Ok in H as (_ & _ & _ & _ & _ & B6 & _).
  exact B6.
Qed.

(** X3. The diffs of the results are flattened in order behind the diffs the
    output had; the key is left alone when no result carries a diff. *)
Theorem build_output_diffs (output o : task_output) (rs : list mresult) :
  _build_output output rs = Ok o ->
  o_diff o
  = if existsb has_diff rs
    then Some (default [] (o_diff output) ++ List.flat_map diffs_of rs)
    else o_diff output.
Proof.
  unfold _build_output. intros H.
  apply build_output_loop_Ok in H as (_ & _ & _ & _ & _ & _ & B7).
  exact B7.
Qed.

Lemma build_output_loop_Raise (output : task_output) (rs : list mresult) (e : exn) :
  build_output_loop output rs = Raise e <->
  e = KeyError "changed" /\
  default false (o_changed output) = false /\
  exists pre r post,
    rs = pre ++ r :: post /\
    Forall (fun x => r_changed x = Some false) pre /\
    r_changed r = None.
Proof.
  revert output. induction rs as [|r rs IH]; intros output.
  - simpl. split; [discriminate|].
    intros (_ & _ & pre & x & post & H & _). destruct pre; discriminate H.
  - simpl. destruct (add_result output r) as [acc|x] eqn:Ha; simpl.
    + pose proof (add_result_Ok _ _ _ Ha) as (_ & _ & _ & _ & _ & A6 & _).
      rewrite IH, A6. clear IH. simpl.
      unfold add_result in Ha.
      destruct (default false (o_changed output)) eqn:Hc; simpl.
      * split; intros (_ & H & _); discriminate H.
      * destruct (r_changed r) as [c|] eqn:Hr; [|discriminate Ha].
        unfold reports_change. rewrite Hr. split.
        -- intros (-> & Hfalse & pre & x & post & -> & Hpre & Hx).
           split; [reflexivity|]. split; [reflexivity|].
           exists (r :: pre), x, post. split; [reflexivity|].
           split; [|exact Hx]. constructor; [|exact Hpre].
           rewrite Hr. f_equal.
           destruct c; [|reflexivity].
           rewrite bool_decide_eq_true_2 in Hfalse by reflexivity.
           discriminate Hfalse.
        -- intros (-> & _ & pre & x & post & Hrs & Hpre & Hx).
           destruct pre as [|y pre]; simpl in Hrs.
           ++ injection Hrs as <- _. congruence.
           ++ injection Hrs as <- ->. inversion Hpre as [|? ? Hy Hpre']; subst.
              split; [reflexivity|]. split.
              ** rewrite Hr in Hy. injection Hy as ->.
                 apply bool_decide_eq_false_2. discriminate.
              ** eauto 6.
    + unfold add_result in Ha.
      destruct (default false (o_changed output)) eqn:Hc; [discriminate Ha|].
      destruct (r_changed r) as [c|] eqn:Hr; [discriminate Ha|].
      injection Ha as <-. split.
      * intros [= <-]. split; [reflexivity|]. split; [reflexivity|].
        exists [], r, rs. auto.
      * intros (-> & _). reflexivity.
Qed.

(** X4. [_build_output] raises nothing but the [KeyError] of a result without
    [changed], and raises it exactly when such a result is reached
    before any change was seen: the task had none, and the results
    before it all carry [changed] and report none. *)
Theorem build_output_raises_iff (output : task_output) (rs : list mresult)
  (e : exn) :
  _build_output output rs = Raise e <->
  e = KeyError "changed" /\
  default false (o_changed output) = false /\
  exists pre r post,
    rs = pre ++ r :: post /\
    Forall (fun x => r_changed x = Some false) pre /\
    r_changed r = None.
Proof. unfold _build_output. rewrite build_output_loop_Raise. reflexivity. Qed.

(** ** The listing of the destination *)

Lemma leading_seps_named (s b : string) :
  only_seps s = false -> Str.leading_seps (s +:+ b) = Str.leading_seps s.
Proof.
  induction s as [|c s IH]; simpl; [discriminate|].
  destruct (Ascii.eqb c "/"); simpl; [|reflexivity].
  intros H. rewrite IH by exact H. reflexivity.
Qed.

Lemma parse_with_dot (s : string) :
  only_seps s = false ->
  pathlib.parse (s +:+ "/.") = pathlib.parse s.
Proof.
  intros Hs. unfold pathlib.parse, posixpath.initial_slashes.
  rewrite leading_seps_named by exact Hs.
  change (s +:+ "/.") with (s +:+ "/" +:+ ".").
  rewrite split_sep_app, List.filter_app. simpl. rewrite app_nil_r.
  reflexivity.
Qed.

(** X5. Line 188 rebuilds a listed path as [PurePath(path + "/.")] to get a
    plain [str]; for a path that holds anything but separators this is
    the path that [PurePath(path)] would be.  (For ["/"] alone it is
    not: the two leading separators of ["//."] make the root ["//"].) *)
Theorem rebuilt_path_is_the_listed_path (f : found_entry) :
  only_seps (f_path f) = false ->
  re_path (remote_entry_of f) = pathlib.parse (f_path f).
Proof. intros Hs. unfold remote_entry_of. cbn [re_path]. apply parse_with_dot, Hs. Qed.

Lemma clean_rel_not_only_seps (d0 : string) :
  clean_rel d0 = true -> only_seps ("/" +:+ d0) = false.
Proof.
  intros Hd. destruct (clean_rel_head d0 Hd) as (Hne & Hlead & _).
  destruct d0 as [|c d0]; [contradiction|]. simpl in *.
  destruct (Ascii.eqb c "/"); [discriminate Hlead | reflexivity].
Qed.

Lemma filter_keep_plain (cs : list string) :
  forallb plainb cs = true -> List.filter pathlib.keep_part cs = cs.
Proof.
  induction cs as [|c cs IH]; simpl; [reflexivity|].
  intros H. apply andb_true_iff in H as [Hc Hcs].
  assert (Hk : pathlib.keep_part c = true).
  { unfold plainb in Hc. unfold pathlib.keep_part.
    apply andb_true_iff in Hc as [Hc _]. exact Hc. }
  rewrite Hk, IH by exact Hcs. reflexivity.
Qed.

Lemma parse_abs_clean (d0 : string) :
  clean_rel d0 = true ->
  pathlib.parse ("/" +:+ d0)
  = {| pp_root := "/"; pp_parts := Str.split_sep d0 |}.
Proof.
  intros Hd. destruct (clean_rel_head d0 Hd) as (Hne & Hlead & _).
  unfold pathlib.parse, posixpath.initial_slashes. simpl.
  rewrite Hlead. simpl. rewrite filter_keep_plain by exact Hd. reflexivity.
Qed.

(** X6. The path handed to the delete is the path that was listed: for a
    normalised absolute path, going through [PurePath(path + "/.")] and
    back through [str] gives the same string. *)
Theorem delete_names_the_listed_path (f : found_entry) (d0 : string) :
  f_path f = "/" +:+ d0 ->
  clean_rel d0 = true ->
  delete_call (remote_entry_of f) = FileAbsent (f_path f).
Proof.
  intros Hf Hd. unfold delete_call, remote_entry_of. cbn [re_path]. f_equal.
  rewrite Hf.
  rewrite parse_with_dot by (apply clean_rel_not_only_seps, Hd).
  rewrite parse_abs_clean by exact Hd.
  unfold pathlib.to_str. cbn [pp_root pp_parts].
  rewrite join_split_sep. reflexivity.
Qed.

(** ** More on the reconciler *)

Lemma rewrite_ignore_Ok_iff (remote_path : string) (i : PurePath) :
  (exists i', rewrite_ignore remote_path i = Ok i') <->
  (pathlib.is_absolute i = true ->
   equal_or_under i (pathlib.parse remote_path)).
Proof.
  unfold rewrite_ignore. destruct (pathlib.is_absolute i).
  - destruct (pathlib.relative_to i (pathlib.parse remote_path)) as [r|] eqn:E.
    + split; [|eauto]. intros _ _. apply relative_to_is_Some. eauto.
    + split; [intros [? H]; discriminate H|]. intros H.
      specialize (H eq_refl). apply relative_to_is_Some in H as [r Hr].
      congruence.
  - split; [intros _ H; discriminate H | eauto].
Qed.

Lemma rewrite_ignore_only_ValueError (remote_path : string) (i : PurePath)
  (e : exn) :
  rewrite_ignore remote_path i = Raise e -> e = ValueError.
Proof.
  unfold rewrite_ignore. destruct (pathlib.is_absolute i); [|discriminate].
  destruct (pathlib.relative_to i (pathlib.parse remote_path));
    [discriminate | intros [= <-]; reflexivity].
Qed.

(** The ignore paths are rewritten one for one, or the first that
    cannot be raises [ValueError]. *)
Lemma rewrite_all (remote_path : string) (exclusive_ignore : list PurePath) :
  (ignores_under remote_path exclusive_ignore /\
   exists ignore,
     res_map (rewrite_ignore remote_path) exclusive_ignore = Ok ignore /\
     Forall2 (fun i i' => rewrite_ignore remote_path i = Ok i')
             exclusive_ignore ignore) \/
  (~ ignores_under remote_path exclusive_ignore /\
   res_map (rewrite_ignore remote_path) exclusive_ignore = Raise ValueError).
Proof.
  unfold ignores_under.
  induction exclusive_ignore as [|i l IH]; simpl.
  - left. split; [intros i []|]. exists []. split; [reflexivity | constructor].
  - destruct (rewrite_ignore remote_path i) as [i'|e] eqn:Ei; simpl.
    + assert (Hi : pathlib.is_absolute i = true ->
                   equal_or_under i (pathlib.parse remote_path))
        by (apply rewrite_ignore_Ok_iff; eauto).
      destruct IH as [(Hall & ignore & -> & HF)|(Hnot & ->)]; simpl.
      * left. split; [intros j [<-|Hj]; auto|].
        exists (i' :: ignore). split; [reflexivity|]. constructor; assumption.
      * right. split; [|reflexivity]. intros H. apply Hnot.
        intros j Hj. apply H. right. exact Hj.
    + right. split.
      * intros H.
        assert (Hex : exists i', rewrite_ignore remote_path i = Ok i')
          by (apply rewrite_ignore_Ok_iff; apply H; left; reflexivity).
        destruct Hex as [i' Hi']. congruence.
      * apply rewrite_ignore_only_ValueError in Ei. subst e. reflexivity.
Qed.

Lemma yields_only_ValueError (local_entries : list entry) (remote_path : string)
  (exclusive : pyval) (ignore : list PurePath) (r : remote_entry) (e : exn) :
  yields local_entries remote_path exclusive ignore r = Raise e ->
  e = ValueError /\ ~ equal_or_under (re_path r) (pathlib.parse remote_path).
Proof.
  unfold yields.
  destruct (pathlib.relative_to (re_path r) (pathlib.parse remote_path))
    as [rel|] eqn:E.
  - destruct (local_match local_entries (re_path r)) as [m|].
    + destruct (negb _); discriminate.
    + destruct (truthy exclusive); [|discriminate].
      destruct (ignore_match ignore rel); discriminate.
  - intros [= <-]. split; [reflexivity|]. intros H.
    apply relative_to_is_Some in H as [rel H]. congruence.
Qed.

Lemma delete_loop_Raise (local_entries : list entry) (remote_path : string)
  (exclusive : pyval) (ignore : list PurePath)
  (remote_entries : list remote_entry) (e : exn) :
  delete_loop local_entries remote_path exclusive ignore remote_entries
  = Raise e ->
  e = ValueError /\ ~ listed_under remote_path remote_entries.
Proof.
  unfold listed_under.
  induction remote_entries as [|r rs IH]; simpl; [discriminate|].
  destruct (yields local_entries remote_path exclusive ignore r) as [y|x] eqn:Ey;
    simpl.
  - destruct (delete_loop local_entries remote_path exclusive ignore rs)
      as [ys|x]; simpl; [discriminate|].
    intros [= <-]. destruct (IH eq_refl) as [-> Hnot].
    split; [reflexivity|]. intros H. apply Hnot. intros r' Hr'.
    apply H. right. exact Hr'.
  - intros [= <-]. apply yields_only_ValueError in Ey as [-> Hnot].
    split; [reflexivity|]. intros H. apply Hnot, H. left. reflexivity.
Qed.

(** The rewritten ignore paths exempt what the task's ignore paths
    cover. *)
Lemma rewritten_ignores_exempt (remote_path : string)
  (exclusive_ignore ignore : list PurePath) (a rel : PurePath) :
  Forall2 (fun i i' => rewrite_ignore remote_path i = Ok i')
          exclusive_ignore ignore ->
  pathlib.relative_to a (pathlib.parse remote_path) = Some rel ->
  (forall i', In i' ignore -> ~ equal_or_under rel i') <->
  (forall i, In i exclusive_ignore -> ~ exempts a rel i).
Proof.
  intros HF Hrel. unfold exempts.
  induction HF as [|i i' l l' Hi HF IH].
  - split; intros _ ? [].
  - pose proof (rewritten_ignore_meaning _ _ _ _ _ Hi Hrel) as Hm.
    split.
    + intros H j [<-|Hj].
      * rewrite <- Hm. apply H. left. reflexivity.
      * apply IH; [|exact Hj]. intros j' Hj'. apply H. right. exact Hj'.
    + intros H j' [<-|Hj'].
      * rewrite Hm. apply H. left. reflexivity.
      * apply (proj2 IH); [|exact Hj']. intros j Hj. apply H. right. exact Hj.
Qed.

(** The loop over the listing returns, for a listing under the root, or
    raises. *)
Lemma delete_loop_filter_or_raise (local_entries : list entry)
  (remote_path : string) (exclusive : pyval) (ignore : list PurePath)
  (remote_entries : list remote_entry) :
  listed_under remote_path remote_entries \/
  exists e, delete_loop local_entries remote_path exclusive ignore remote_entries
            = Raise e.
Proof.
  unfold listed_under.
  induction remote_entries as [|r rs IH]; [left; intros r []|].
  simpl.
  destruct (yields local_entries remote_path exclusive ignore r) as [y|x] eqn:Ey;
    simpl; [|right; eauto].
  destruct IH as [Hu|[e He]].
  - left. intros r' [<-|Hr']; [|apply Hu, Hr'].
    unfold yields in Ey.
    destruct (pathlib.relative_to (re_path r) (pathlib.parse remote_path))
      eqn:Er; [|discriminate Ey].
    apply relative_to_is_Some. eauto.
  - right. rewrite He. simpl. eauto.
Qed.

(** A delete set is computed only from a listing under the root. *)
Lemma delete_loop_Ok_listed (local_entries : list entry) (remote_path : string)
  (exclusive : pyval) (ignore : list PurePath)
  (remote_entries to_delete : list remote_entry) :
  delete_loop local_entries remote_path exclusive ignore remote_entries
  = Ok to_delete ->
  listed_under remote_path remote_entries.
Proof.
  intros Hok.
  destruct (delete_loop_filter_or_raise local_entries remote_path exclusive
              ignore remote_entries) as [Hu|[e He]]; [exact Hu|].
  rewrite He in Hok. discriminate Hok.
Qed.

(** C2. A listed entry whose path is the destination of no planned entry
    is in the delete set if and only if [exclusive] is true and no path
    of [exclusive_ignore] covers it: a relative ignore path covers the
    entries whose path relative to the destination root is equal to it
    or under it, and an absolute ignore path, which stands for its path
    relative to the destination root, the entries whose path is equal to
    it or under it.  So with [exclusive] false no unmatched entry is
    deleted. *)
Theorem unmatched_deleted_iff_exclusive_and_not_ignored
  (local_entries : list entry) (remote_entries : list remote_entry)
  (remote_path : string) (exclusive : pyval) (exclusive_ignore : list PurePath)
  (to_delete : list remote_entry) (r : remote_entry) :
  _get_entries_to_delete local_entries remote_entries remote_path
                         exclusive exclusive_ignore = Ok to_delete ->
  In r remote_entries ->
  (forall p, In p local_entries -> pathlib.parse (e_dest p) <> re_path r) ->
  exists rel,
    pathlib.relative_to (re_path r) (pathlib.parse remote_path) = Some rel /\
    (In r to_delete <->
     truthy exclusive = true /\
     forall i, In i exclusive_ignore -> ~ exempts (re_path r) rel i) /\
    (truthy exclusive = false -> ~ In r to_delete).
Proof.
  intros Hok Hr Hno. unfold _get_entries_to_delete in Hok.
  destruct (rewrite_all remote_path exclusive_ignore)
    as [(_ & ignore & Hres & HF)|(_ & Hres)];
    rewrite Hres in Hok; simpl in Hok; [|discriminate Hok].
  pose proof (delete_loop_Ok_listed _ _ _ _ _ _ Hok) as Hu.
  destruct (proj2 (relative_to_is_Some _ _) (Hu r Hr)) as [rel Hrel].
  rewrite delete_loop_filter in Hok by exact Hu. injection Hok as <-.
  exists rel. split; [exact Hrel|].
  assert (Hy : yields local_entries remote_path exclusive ignore r = Ok true <->
               truthy exclusive = true /\
               forall i, In i exclusive_ignore -> ~ exempts (re_path r) rel i).
  { rewrite <- (rewritten_ignores_exempt _ _ _ _ _ HF Hrel).
    unfold yields. rewrite Hrel.
    rewrite (proj2 (local_match_None _ _) Hno).
    destruct (truthy exclusive).
    - destruct (ignore_match ignore rel) as [i|] eqn:E.
      + split; [discriminate|]. intros [_ H].
        apply ignore_match_None in H. congruence.
      + pose proof (proj1 (ignore_match_None _ _) E) as E'. split; auto.
    - split; [discriminate | intros [H _]; discriminate H]. }
  split.
  - rewrite filter_In, bool_decide_eq_true, Hy.
    split; [intros [_ H]; exact H | intros H; split; [exact Hr | exact H]].
  - intros Hex. rewrite filter_In, bool_decide_eq_true, Hy.
    intros (_ & H & _). congruence.
Qed.

(** X7. The delete set is computed exactly when every absolute ignore path
    and every listed path lies under the destination root; otherwise
    the reconciler raises [ValueError], whatever [exclusive] is, and
    never any other exception. *)
Theorem delete_set_computed_iff_under_root
  (local_entries : list entry) (remote_entries : list remote_entry)
  (remote_path : string) (exclusive : pyval) (exclusive_ignore : list PurePath) :
  ((exists to_delete,
      _get_entries_to_delete local_entries remote_entries remote_path
                             exclusive exclusive_ignore = Ok to_delete) <->
   ignores_under remote_path exclusive_ignore /\
   listed_under remote_path remote_entries) /\
  (forall e,
     _get_entries_to_delete local_entries remote_entries remote_path
                            exclusive exclusive_ignore = Raise e ->
     e = ValueError).
Proof.
  unfold _get_entries_to_delete.
  destruct (rewrite_all remote_path exclusive_ignore)
    as [(Hall & ignore & -> & _)|(Hnot & ->)]; simpl.
  - split.
    + split.
      * intros [td Htd]. split; [exact Hall|].
        destruct (delete_loop local_entries remote_path exclusive ignore
                    remote_entries) as [td'|e] eqn:E; [|discriminate Htd].
        clear Htd. unfold listed_under. intros r Hr.
        revert td' E. induction remote_entries as [|r' rs IH];
          [destruct Hr|]. simpl. intros td' E.
        destruct (yields local_entries remote_path exclusive ignore r')
          as [y|x] eqn:Ey; simpl in E; [|discriminate E].
        destruct (delete_loop local_entries remote_path exclusive ignore rs)
          as [ys|x]; simpl in E; [|discriminate E].
        destruct Hr as [<-|Hr]; [|eapply IH; eauto].
        unfold yields in Ey.
        destruct (pathlib.relative_to (re_path r') (pathlib.parse remote_path))
          eqn:Er; [|discriminate Ey].
        apply relative_to_is_Some. eauto.
      * intros [_ Hu]. rewrite delete_loop_filter by exact Hu. eauto.
    + intros e He. apply delete_loop_Raise in He as [-> _]. reflexivity.
  - split.
    + split; [intros [td H]; discriminate H | intros [H _]; contradiction].
    + intros e [= <-]. reflexivity.
Qed.

(** X8. With [exclusive] set, a listed entry that no planned destination
    equals is deleted exactly when no ignore path of the task covers
    it, an absolute ignore path covering the paths equal to it or under
    it and a relative one the paths so placed under the destination
    root. *)
Theorem unmatched_deleted_iff_not_exempt
  (local_entries : list entry) (remote_entries : list remote_entry)
  (remote_path : string) (exclusive : pyval) (exclusive_ignore : list PurePath)
  (r : remote_entry) (rel : PurePath) :
  ignores_under remote_path exclusive_ignore ->
  listed_under remote_path remote_entries ->
  In r remote_entries ->
  pathlib.relative_to (re_path r) (pathlib.parse remote_path) = Some rel ->
  (forall p, In p local_entries -> pathlib.parse (e_dest p) <> re_path r) ->
  truthy exclusive = true ->
  exists to_delete,
    _get_entries_to_delete local_entries remote_entries remote_path
                           exclusive exclusive_ignore = Ok to_delete /\
    (In r to_delete <->
     forall i, In i exclusive_ignore -> ~ exempts (re_path r) rel i).
Proof.
  intros Hig Hu Hr Hrel Hno Hex. unfold _get_entries_to_delete.
  destruct (rewrite_all remote_path exclusive_ignore)
    as [(_ & ignore & -> & HF)|(Hnot & _)]; [|contradiction].
  simpl. rewrite delete_loop_filter by exact Hu.
  eexists. split; [reflexivity|].
  rewrite filter_In, bool_decide_eq_true.
  unfold yields. rewrite Hrel.
  rewrite (proj2 (local_match_None _ _) Hno), Hex.
  assert (Hequiv :
    (forall i', In i' ignore -> ~ equal_or_under rel i') <->
    (forall i, In i exclusive_ignore -> ~ exempts (re_path r) rel i)).
  { clear -HF Hrel. unfold exempts.
    induction HF as [|i i' l l' Hi HF IH].
    - split; intros _ ? [].
    - pose proof (rewritten_ignore_meaning _ _ _ _ _ Hi Hrel) as Hm.
      split.
      + intros H j [<-|Hj].
        * rewrite <- Hm. apply H. left. reflexivity.
        * apply IH; [|exact Hj]. intros j' Hj'. apply H. right. exact Hj'.
      + intros H j' [<-|Hj'].
        * rewrite Hm. apply H. left. reflexivity.
        * apply (proj2 IH); [|exact Hj']. intros j Hj. apply H. right. exact Hj. }
  rewrite <- Hequiv, <- ignore_match_None.
  destruct (ignore_match ignore rel); split.
  - intros [_ H]; discriminate H.
  - intros H; discriminate H.
  - intros _. reflexivity.
  - intros _. split; [exact Hr | reflexivity].
Qed.

(** X9. Without [exclusive] the reconciler deletes to replace only: every
    entry of the delete set is a listed entry at the destination of a
    planned entry, the first at that destination, whose kind it does not
    have. *)
Theorem non_exclusive_deletes_only_mismatches
  (local_entries : list entry) (remote_entries : list remote_entry)
  (remote_path : string) (exclusive : pyval) (exclusive_ignore : list PurePath)
  (to_delete : list remote_entry) (r : remote_entry) :
  _get_entries_to_delete local_entries remote_entries remote_path
                         exclusive exclusive_ignore = Ok to_delete ->
  truthy exclusive = false ->
  In r to_delete ->
  In r remote_entries /\
  exists p, first_match local_entries (re_path r) p /\
            e_state p <> remote_state r.
Proof.
  unfold _get_entries_to_delete.
  destruct (res_map (rewrite_ignore remote_path) exclusive_ignore)
    as [ignore|]; simpl; [|discriminate].
  intros Hloop Hex Hin. apply delete_loop_Ok_filter in Hloop. subst to_delete.
  apply filter_In in Hin as [Hr Hy]. apply bool_decide_eq_true in Hy.
  split; [exact Hr|]. unfold yields in Hy.
  destruct (pathlib.relative_to (re_path r) (pathlib.parse remote_path));
    [|discriminate Hy].
  destruct (local_match local_entries (re_path r)) as [m|] eqn:Em.
  - exists m. split; [apply local_match_first; exact Em|].
    destruct (String.eqb_spec (e_state m) (remote_state r)) as [Heq|Hne];
      [discriminate Hy | exact Hne].
  - rewrite Hex in Hy. discriminate Hy.
Qed.

(** ** More on the mapper, the contents and the merger *)

Lemma planned_entry_invariants (d : string) (o g fm dm : pyval)
  (le : local_entry) (e0 e : entry) :
  planned_entry d o g fm dm le = Ok (Some e0) ->
  set_file_content e0 = Ok e ->
  e_owner e = o /\ e_group e = g /\
  ((e_state e = "file" /\ e_mode e = fm /\ resolved e) \/
   (e_state e = "directory" /\ e_mode e = dm /\ e_src e = None /\
    e_content e = None /\ e_template e = false)).
Proof.
  unfold planned_entry. cbv zeta.
  destruct (String.eqb_spec (le_state le) "file") as [Hs|Hs].
  - destruct (le_src le) as [src|]; [|discriminate].
    intros [= <-]. unfold set_file_content. cbn [e_state e_src e_template].
    rewrite Hs. cbn [String.eqb Ascii.eqb Bool.eqb].
    destruct (if Str.endswith _ _ then template_lookup src
              else _get_local_file_contents src) as [content|] eqn:Ec;
      simpl; [|discriminate].
    intros [= <-]. cbn. split; [reflexivity|]. split; [reflexivity|].
    left. split; [reflexivity|]. split; [reflexivity|].
    exists src, content. cbn. auto.
  - destruct (String.eqb_spec (le_state le) "directory") as [Hd|Hd];
      [|discriminate].
    intros [= <-]. unfold set_file_content. cbn [e_state].
    rewrite Hd. cbn [String.eqb Ascii.eqb Bool.eqb].
    intros [= <-]. cbn. auto 10.
Qed.

(** X10. Every planned entry carries the owner and group of the run; a file
    carries the file mode, its source and the content its one strategy
    resolved; a directory carries the directory mode and neither source,
    content nor template mark.  So only files are templates. *)
Theorem planned_entries_are_well_formed (les : list local_entry) (d : string)
  (o g fm dm : pyval) (tc0 tc : list entry) (e : entry) :
  _get_entries_to_create les d o g fm dm = Ok tc0 ->
  _set_file_contents tc0 = Ok tc ->
  In e tc ->
  e_owner e = o /\ e_group e = g /\
  ((e_state e = "file" /\ e_mode e = fm /\ resolved e) \/
   (e_state e = "directory" /\ e_mode e = dm /\ e_src e = None /\
    e_content e = None /\ e_template e = false)).
Proof.
  unfold _get_entries_to_create, _set_file_contents.
  destruct (res_map _ les) as [pl|] eqn:Hpl; simpl; [|discriminate].
  intros [= <-]. revert pl tc Hpl.
  induction les as [|le les IH]; intros pl tc Hpl Hc Hin.
  - injection Hpl as <-. injection Hc as <-. destruct Hin.
  - apply res_map_cons_Ok in Hpl as (oe & pl' & Hle & Hpl & ->).
    destruct oe as [e0|]; simpl in Hc; [|eapply IH; eauto].
    apply res_map_cons_Ok in Hc as (e1 & tc' & He & Hc & ->).
    destruct Hin as [<-|Hin]; [|eapply IH; eauto].
    eapply planned_entry_invariants; eassumption.
Qed.

Lemma template_extension_below (d1 p : string) :
  Str.endswith (("/" +:+ d1) +:+ "/" +:+ p) TEMPLATE_EXTENSION
  = Str.endswith p TEMPLATE_EXTENSION.
Proof. apply endswith_below. reflexivity. Qed.

(** X11. Under a normalised absolute destination root, an entry with a
    normalised path is planned at its destination root followed by its
    path; a file whose name ends with [.j2] is marked as a template and
    loses that suffix, and nothing else is marked or changed. *)
Theorem template_suffix_is_stripped (d0 : string) (o g fm dm : pyval)
  (le : local_entry) (e : entry) :
  clean_rel d0 = true ->
  clean_rel (le_path le) = true ->
  (Str.endswith (le_root le) posixpath.sep = false ->
   plainb (posixpath.basename (le_root le)) = true) ->
  planned_entry ("/" +:+ d0) o g fm dm le = Ok (Some e) ->
  e_dest e
  = destination_root ("/" +:+ d0) le +:+ "/" +:+ planned_relative_path le /\
  e_template e
  = (String.eqb (le_state le) "file"
     && Str.endswith (le_path le) TEMPLATE_EXTENSION).
Proof.
  intros Hd0 Hp Hb Hplan.
  destruct (destination_root_abs d0 le Hd0 Hb) as (d1 & Hd1 & Hroot & _).
  split.
  - rewrite (planned_entry_dest_clean d0 d1 o g fm dm le e Hd1 Hp Hroot Hplan).
    rewrite Hroot. simpl. rewrite !append_assoc. reflexivity.
  - assert (Hdest : destination_path ("/" +:+ d0) le
                    = ("/" +:+ d1) +:+ "/" +:+ le_path le).
    { unfold destination_path. rewrite Hroot, (normpath_clean _ Hp).
      apply normpath_join_abs_clean; assumption. }
    unfold planned_entry in Hplan. cbv zeta in Hplan.
    rewrite Hdest, template_extension_below in Hplan.
    destruct (String.eqb (le_state le) "file").
    + destruct (le_src le); [|discriminate Hplan].
      injection Hplan as <-. reflexivity.
    + destruct (String.eqb (le_state le) "directory"); [|discriminate Hplan].
      injection Hplan as <-. reflexivity.
Qed.

Lemma endswith_own_suffix (a suf : string) : Str.endswith (a +:+ suf) suf = true.
Proof. apply endswith_split. exists a. reflexivity. Qed.

Lemma file_root_destination_path (found_path d0 : string) :
  clean_rel d0 = true ->
  plainb (posixpath.basename found_path) = true ->
  destination_path ("/" +:+ d0) (file_root_entry found_path)
  = ("/" +:+ d0) +:+ "/" +:+ posixpath.basename found_path.
Proof.
  intros Hd Hb. apply basename_clean in Hb.
  unfold destination_path, destination_root, file_root_entry.
  cbn [le_root le_path]. rewrite endswith_own_suffix. cbn [negb].
  rewrite (normpath_clean _ Hb).
  apply normpath_join_abs_clean; assumption.
Qed.

(** X12. A source that is a regular file is planned as a file directly
    under the destination root, wherever it lies in the role: under its
    own name, or, when that name ends with [.j2], under the name without
    this suffix and marked as a template.  Its [src] is the path that
    was found, and it carries the owner, the group and the file mode of
    the run. *)
Theorem file_source_lands_under_destination (found_path d0 : string)
  (o g fm dm : pyval) :
  clean_rel d0 = true ->
  plainb (posixpath.basename found_path) = true ->
  planned_entry ("/" +:+ d0) o g fm dm (file_root_entry found_path)
  = Ok (Some
          {| e_dest :=
               ("/" +:+ d0) +:+ "/"
               +:+ (if Str.endswith (posixpath.basename found_path)
                                    TEMPLATE_EXTENSION
                    then Str.drop_end (String.length TEMPLATE_EXTENSION)
                                      (posixpath.basename found_path)
                    else posixpath.basename found_path);
             e_state := "file";
             e_owner := o;
             e_group := g;
             e_src := Some found_path;
             e_template :=
               Str.endswith (posixpath.basename found_path) TEMPLATE_EXTENSION;
             e_mode := fm;
             e_content := None |}).
Proof.
  intros Hd Hb. unfold planned_entry. cbv zeta.
  rewrite (file_root_destination_path _ _ Hd Hb), template_extension_below.
  change (le_state (file_root_entry found_path)) with "file".
  change (le_src (file_root_entry found_path)) with (Some found_path).
  change (String.eqb "file" "file") with true. cbv iota.
  destruct (Str.endswith (posixpath.basename found_path) TEMPLATE_EXTENSION)
    eqn:E; [|reflexivity].
  apply endswith_split in E as [pre E]. rewrite E, drop_end_app.
  do 2 f_equal. f_equal.
  replace (("/" +:+ d0) +:+ "/" +:+ pre +:+ TEMPLATE_EXTENSION)
    with ((("/" +:+ d0) +:+ "/" +:+ pre) +:+ TEMPLATE_EXTENSION).
  - apply drop_end_app.
  - rewrite append_assoc. reflexivity.
Qed.

Lemma planned_entry_outcome (d : string) (o g fm dm : pyval) (le : local_entry) :
  if file_without_src le
  then planned_entry d o g fm dm le = Raise (KeyError "src")
  else exists oe, planned_entry d o g fm dm le = Ok oe /\
                  (recognised le = true <-> exists e, oe = Some e).
Proof.
  unfold file_without_src, planned_entry, recognised. cbv zeta.
  destruct (String.eqb (le_state le) "file"); simpl.
  - destruct (le_src le); [|reflexivity].
    eexists. split; [reflexivity|]. split; eauto.
  - destruct (String.eqb (le_state le) "directory").
    + eexists. split; [reflexivity|]. split; eauto.
    + exists None. split; [reflexivity|].
      split; [discriminate | intros [? H]; discriminate H].
Qed.

(** X13. The mapper fails exactly when a file entry lacks its source, then
    with the [KeyError] of that key; otherwise it plans one entry for
    each file and directory and silently drops every other entry. *)
Theorem mapper_fails_only_for_file_without_src (les : list local_entry)
  (d : string) (o g fm dm : pyval) :
  if existsb file_without_src les
  then _get_entries_to_create les d o g fm dm = Raise (KeyError "src")
  else exists tc,
         _get_entries_to_create les d o g fm dm = Ok tc /\
         length tc = length (List.filter recognised les).
Proof.
  unfold _get_entries_to_create.
  induction les as [|le les IH]; simpl.
  - exists []. auto.
  - pose proof (planned_entry_outcome d o g fm dm le) as Hle.
    destruct (file_without_src le); simpl.
    + rewrite Hle. reflexivity.
    + destruct Hle as (oe & -> & Hrec). simpl.
      destruct (existsb file_without_src les).
      * destruct (res_map _ les) as [pl|] eqn:E; simpl in *;
          [discriminate IH | congruence].
      * destruct IH as (tc & Htc & Hlen).
        destruct (res_map _ les) as [pl|]; simpl in *; [|discriminate Htc].
        injection Htc as <-. eexists. split; [reflexivity|].
        destruct oe as [e|]; simpl.
        -- rewrite (proj2 Hrec) by eauto. simpl. f_equal. exact Hlen.
        -- destruct (recognised le); [|exact Hlen].
           destruct (proj1 Hrec eq_refl) as [? H]. discriminate H.
Qed.

(** X14. Sources that are all regular files give one entry each, in order,
    and the lookup is not consulted. *)
Theorem file_sources_give_one_entry_each (paths : list string) :
  (forall lp, In lp paths ->
     path_exists (path_dwim_relative lp) && S_ISREG (path_dwim_relative lp) = true) ->
  _get_local_entries (List.map PStr paths)
  = Ok (List.map (fun lp => file_root_entry (path_dwim_relative lp)) paths).
Proof.
  intros Hfile. unfold _get_local_entries.
  assert (Hmap : res_map source_path (List.map PStr paths) = Ok paths).
  { clear Hfile. induction paths as [|lp l IH]; simpl; [reflexivity|].
    rewrite IH. reflexivity. }
  rewrite Hmap. simpl. rewrite local_entries_loop_flat. simpl. f_equal.
  clear Hmap. generalize paths at 1 as all. intros all.
  induction paths as [|lp l IH]; simpl; [reflexivity|].
  unfold local_entries_of at 1. rewrite Hfile by (left; reflexivity).
  rewrite IH by (intros lp' Hin; apply Hfile; right; exact Hin).
  reflexivity.
Qed.

(** X15. Sources that are all directories: the merged list holds, for each of
    them in turn, its own entry followed by everything the lookup finds
    under all of the sources; with [n] directories every found entry is
    emitted [n] times. *)
Theorem directory_sources_repeat_the_lookup (paths : list string) :
  (forall lp, In lp paths ->
     path_exists (path_dwim_relative lp) && S_ISREG (path_dwim_relative lp) = false) ->
  exists les,
    _get_local_entries (List.map PStr paths) = Ok les /\
    les = List.flat_map
            (fun lp => directory_root_entry lp :: filetree_run paths) paths /\
    length les = length paths * S (length (filetree_run paths)).
Proof.
  intros Hdir. eexists. split; [apply directory_roots_repeat_lookup, Hdir|].
  split; [reflexivity|].
  generalize (filetree_run paths) as found. intros found.
  clear Hdir. induction paths as [|lp l IH]; [reflexivity|].
  simpl. rewrite length_app, IH. reflexivity.
Qed.

(** X16. [_parse_path_list] on values that are all strings: an absent
    argument gives no path, a single string one path, a list of strings
    their paths in order. *)
Theorem parse_path_list_of_strings (args : gmap string pyval)
  (argname : string) (ss : list string) :
  as_list (default (PList []) (args !! argname)) = List.map PStr ss ->
  _parse_path_list args argname = Ok (List.map pathlib.parse ss).
Proof.
  intros H. unfold _parse_path_list. cbv zeta. rewrite H.
  assert (Hmap : res_map PurePath_of (List.map PStr ss)
                 = Ok (List.map pathlib.parse ss)).
  { clear H. induction ss as [|s l IH]; simpl; [reflexivity|].
    rewrite IH. reflexivity. }
  rewrite Hmap. reflexivity.
Qed.

(** ** More on the run *)

Lemma run_calls_answers (calls : list module_call) (st : host_state) :
  all_succeed calls (world st) ->
  exists rs, run_calls calls st = (Ok rs, state_after calls st) /\
             List.map Ok rs = answers calls (world st).
Proof.
  revert st. induction calls as [|c cs IH]; intros st Hok.
  - exists []. rewrite state_after_nil. auto.
  - destruct Hok as [(r & Hr & Hf) Hrest].
    destruct (IH (state_after [c] st) Hrest) as (rs & Hrs & Hans).
    exists (r :: rs). cbn [run_calls]. unfold bind.
    rewrite execute_module_eq, Hr. unfold check_failed. rewrite Hf.
    unfold ret. rewrite Hrs.
    change (c :: cs) with ([c] ++ cs). rewrite state_after_app.
    split; [reflexivity|]. simpl. rewrite Hr. f_equal. exact Hans.
Qed.

Lemma run_calls_abort (before after : list module_call) (c : module_call)
  (st : host_state) (e : exn) :
  all_succeed before (world st) ->
  aborts_with c (host_after before (world st)) e ->
  run_calls (before ++ c :: after) st
  = (Raise e, state_after (before ++ [c]) st).
Proof.
  intros Hok [Hraise|Hfail]; [|apply run_calls_failure; assumption].
  revert st Hok Hraise. induction before as [|b bs IH]; intros st Hok Hraise.
  - simpl in Hraise. simpl app. cbn [run_calls]. unfold bind.
    rewrite execute_module_eq, Hraise. reflexivity.
  - destruct Hok as [(r & Hr & Hf) Hrest].
    change ((b :: bs) ++ c :: after) with (b :: (bs ++ c :: after)).
    cbn [run_calls]. unfold bind.
    rewrite execute_module_eq, Hr. unfold check_failed. rewrite Hf.
    unfold ret. rewrite (IH (state_after [b] st)) by assumption.
    change (b :: bs) with ([b] ++ bs).
    rewrite !state_after_app. reflexivity.
Qed.

Lemma run_as_run_calls (output : task_output) (args : gmap string pyval)
  (st st1 : host_state) (p : plan) :
  missing_required args = None ->
  plan_run args st = (Ok p, st1) ->
  run output args st
  = (rs <-! run_calls (plan_calls p) ;; lift (_build_output output rs)) st1.
Proof.
  intros Hreq Hp. unfold run. rewrite Hreq. unfold bind at 1. rewrite Hp.
  destruct (plan_run_Ok _ _ _ _ Hp)
    as (ignore & fr & files & tc0 & _ & _ & _ & _ & _ & _ & _
        & Htc0 & Htc & _).
  destruct (to_create_in_merger_order _ _ _ _ _ _ _ _ Htc0 Htc) as [_ Hwf].
  apply apply_plan_run_calls, Hwf.
Qed.

(** X17. When every execution of the plan succeeds, the run executes all of
    them and builds its result from exactly the answers of the host, in
    the order of the executions: the deletes first, then the creates. *)
Theorem successful_run_reports_every_answer (output : task_output)
  (args : gmap string pyval) (st st1 : host_state) (p : plan) :
  missing_required args = None ->
  plan_run args st = (Ok p, st1) ->
  all_succeed (plan_calls p) (world st1) ->
  exists rs,
    List.map Ok rs = answers (plan_calls p) (world st1) /\
    run output args st
    = (_build_output output rs, state_after (plan_calls p) st1).
Proof.
  intros Hreq Hp Hok.
  destruct (run_calls_answers _ _ Hok) as (rs & Hrs & Hans).
  exists rs. split; [exact Hans|].
  rewrite (run_as_run_calls _ _ _ _ _ Hreq Hp). unfold bind. rewrite Hrs.
  reflexivity.
Qed.

(** X18. An execution that raises, or that reports a failure, ends the run
    with that exception; a reported failure without a message ends it
    with the [KeyError] of the key [msg].  The executions before it and
    the execution itself have happened, those after it have not. *)
Theorem aborting_execution_ends_the_run (output : task_output)
  (args : gmap string pyval) (st st1 : host_state) (p : plan)
  (before after : list module_call) (c : module_call) (e : exn) :
  missing_required args = None ->
  plan_run args st = (Ok p, st1) ->
  plan_calls p = before ++ c :: after ->
  all_succeed before (world st1) ->
  aborts_with c (host_after before (world st1)) e ->
  run output args st = (Raise e, state_after (before ++ [c]) st1) /\
  (forall r, fst (execute c (host_after before (world st1))) = Ok r ->
     e = match r_msg r with
         | Some msg => AnsibleError msg
         | None => KeyError "msg"
         end).
Proof.
  intros Hreq Hp Hcalls Hok Habort. split.
  - rewrite (run_as_run_calls _ _ _ _ _ Hreq Hp). unfold bind.
    rewrite Hcalls, (run_calls_abort _ _ _ _ _ Hok Habort). reflexivity.
  - intros r Hr. destruct Habort as [Hraise|(r' & Hr' & _ & ->)].
    + rewrite Hr in Hraise. discriminate Hraise.
    + rewrite Hr in Hr'. injection Hr' as <-. reflexivity.
Qed.

(** X19. When the planning raises, the run raises the same exception, and the
    destination host was asked for its listing at most: nothing was
    deleted or created. *)
Theorem planning_failure_leaves_destination_alone (output : task_output)
  (args : gmap string pyval) (st st1 : host_state) (e : exn) :
  missing_required args = None ->
  plan_run args st = (Raise e, st1) ->
  run output args st = (Raise e, st1) /\
  (st1 = st \/ exists d, st1 = state_after [Find d] st).
Proof.
  intros Hreq Hp. split.
  - unfold run. rewrite Hreq. unfold bind. rewrite Hp. reflexivity.
  - eapply plan_run_state, Hp.
Qed.

(** X20. The listing is used as it comes: whether it reports a failure is not
    looked at.  A listing without the key [files] ends the run with the
    [KeyError] of that key, after the one execution that asked for it. *)
Theorem listing_without_files_is_a_KeyError (output : task_output)
  (args : gmap string pyval) (st : host_state) (ignore : list PurePath)
  (les : list local_entry) (d : string) (fr : mresult) :
  missing_required args = None ->
  _parse_path_list args "exclusive_ignore" = Ok ignore ->
  _get_local_entries (as_list (default PNone (args !! "src"))) = Ok les ->
  args !! "dest" = Some (PStr d) ->
  fst (execute (Find d) (world st)) = Ok fr ->
  r_files fr = None ->
  run output args st = (Raise (KeyError "files"), state_after [Find d] st).
Proof.
  intros Hreq Hi Hl Hd Hfr Hfiles.
  unfold run. rewrite Hreq. unfold bind at 1.
  unfold plan_run. cbv zeta. rewrite Hi, Hl, Hd. simpl.
  unfold bind, lift, _get_remote_entries, bind.
  rewrite execute_module_eq, Hfr, Hfiles. reflexivity.
Qed.

(** X21. A plain file that the loader cannot find ends the resolution of the
    contents with the plugin's own error, which names the source; the
    entries before it were resolved, those after it are not looked at. *)
Theorem unreadable_file_fails_the_contents (pre pre' post : list entry)
  (f : entry) (src : string) :
  res_map set_file_content pre = Ok pre' ->
  e_state f = "file" ->
  e_src f = Some src ->
  e_template f = false ->
  loader_get_file_contents src = Raise AnsibleParserError ->
  _set_file_contents (pre ++ f :: post)
  = Raise (AnsibleError ("could not locate file in lookup: " +:+ src)).
Proof.
  intros Hpre Hs Hsrc Ht Hload. unfold _set_file_contents.
  revert pre' Hpre. induction pre as [|a l IH]; intros pre' Hpre.
  - simpl. unfold set_file_content at 1. rewrite Hs, Hsrc, Ht.
    unfold _get_local_file_contents. rewrite Hload. reflexivity.
  - apply res_map_cons_Ok in Hpre as (b & bs & Ha & Hl & ->).
    simpl. rewrite Ha. simpl. rewrite (IH bs Hl). reflexivity.
Qed.
End Plugin.

(** Known values of the Python functions, as regression checks of the model. *)
Example split_sep_values :
  Str.split_sep "" = [""] /\
  Str.split_sep "a//b/" = ["a"; ""; "b"; ""] /\
  Str.split_sep "/opt/app" = [""; "opt"; "app"].
Proof. repeat split; reflexivity. Qed.

Example basename_dirname_values :
  posixpath.basename "files/app/" = "" /\
  posixpath.basename "files/app" = "app" /\
  posixpath.basename "app" = "app" /\
  posixpath.dirname "/r/files/a.txt" = "/r/files" /\
  posixpath.dirname "a.txt" = "" /\
  posixpath.dirname "/a.txt" = "/" /\
  posixpath.dirname "//a" = "//" /\
  posixpath.dirname "a//b" = "a".
Proof. repeat split; reflexivity. Qed.

Example join_values :
  posixpath.join "/opt/app" "x" = "/opt/app/x" /\
  posixpath.join "/opt/app/" "x" = "/opt/app/x" /\
  posixpath.join "" "x" = "x" /\
  posixpath.join "/opt/app" "/x" = "/x" /\
  posixpath.join "/opt/app" "" = "/opt/app/".
Proof. repeat split; reflexivity. Qed.

Example normpath_values :
  posixpath.normpath "" = "." /\
  posixpath.normpath "/opt/app/." = "/opt/app" /\
  posixpath.normpath "a/../../b" = "../b" /\
  posixpath.normpath "/../a//b/" = "/a/b" /\
  posixpath.normpath "//a" = "//a" /\
  posixpath.normpath "///a" = "/a" /\
  posixpath.normpath "a/.." = ".".
Proof. repeat split; reflexivity. Qed.

Example purepath_values :
  pathlib.parse "/opt/app/x/." = mkPurePath "/" ["opt"; "app"; "x"] /\
  pathlib.parse "a/./b//c/.." = mkPurePath "" ["a"; "b"; "c"; ".."] /\
  pathlib.to_str (pathlib.parse "") = "." /\
  pathlib.relative_to (pathlib.parse "/opt/app/x") (pathlib.parse "/opt/app")
    = Some (mkPurePath "" ["x"]) /\
  pathlib.relative_to (pathlib.parse "/etc/x") (pathlib.parse "/opt/app") = None /\
  pathlib.relative_to (pathlib.parse "/opt/app") (pathlib.parse "") = None /\
  pathlib.is_relative_to (pathlib.parse "keep/x") (pathlib.parse "keep") = true /\
  pathlib.is_relative_to (pathlib.parse "keeper") (pathlib.parse "keep") = false.
Proof. repeat split; reflexivity. Qed.


(** * Examples

    The theorems at work on the sample collaborators, and the inputs on
    which the specification's wording and the plugin part ways. *)

Local Ltac listed :=
  let r := fresh "r" in
  let H := fresh "H" in
  intros r H; simpl in H;
  repeat (destruct H as [<-|H]; [apply relative_to_is_Some; vm_compute; eauto|]);
  destruct H.

(** The scenario of the specification with two more listed entries,
    [cache/tmp] and [keep/state], and the ignore paths [keep] (relative)
    and [/opt/app/cache] (absolute): [cache/tmp], which no planned entry
    maps to, is covered by the absolute ignore path. *)
Lemma unmatched_deleted_in_scenario :
  exists rel,
    pathlib.relative_to (re_path Cases.cache_tmp) (pathlib.parse "/opt/app")
    = Some rel /\
    (In Cases.cache_tmp [Sample.old_txt; Sample.config_yml] <->
     truthy (PBool true) = true /\
     forall i, In i Cases.app_ignores ->
       ~ exempts (re_path Cases.cache_tmp) rel i) /\
    (truthy (PBool true) = false ->
     ~ In Cases.cache_tmp [Sample.old_txt; Sample.config_yml]).
Proof.
  apply (unmatched_deleted_iff_exclusive_and_not_ignored
           Sample.app_planned Cases.app_with_kept "/opt/app" (PBool true)
           Cases.app_ignores [Sample.old_txt; Sample.config_yml]
           Cases.cache_tmp).
  - vm_compute. reflexivity.
  - simpl. auto 10.
  - intros p Hp. simpl in Hp.
    repeat (destruct Hp as [<-|Hp]; [vm_compute; discriminate|]).
    destruct Hp.
Defined.

(** There the delete set holds the stray file [old.txt] and the
    directory in the place of [config.yml]; the two entries under the
    ignore paths stay, and with the ignore paths left out they go. *)
Example ignore_paths_of_both_kinds_exempt :
  _get_entries_to_delete Sample.app_planned Cases.app_with_kept "/opt/app"
                         (PBool true) Cases.app_ignores
  = Ok [Sample.old_txt; Sample.config_yml] /\
  _get_entries_to_delete Sample.app_planned Cases.app_with_kept "/opt/app"
                         (PBool true) []
  = Ok [Sample.old_txt; Sample.config_yml; Cases.cache_tmp; Cases.keep_state].
Proof. split; vm_compute; reflexivity. Qed.

(** In the same scenario a directory sits where the file [config.yml]
    is planned: it is deleted. *)
Lemma mismatched_kind_deleted_in_scenario :
  exists to_delete,
    _get_entries_to_delete Sample.app_planned Sample.app_remote "/opt/app"
                           (PBool false) [] = Ok to_delete /\
    In Sample.config_yml to_delete.
Proof.
  apply (first_match_of_other_kind_is_deleted
           Sample.app_planned Sample.app_remote "/opt/app" (PBool false) [] []
           Sample.config_yml Sample.planned_config).
  - reflexivity.
  - listed.
  - simpl. auto.
  - apply local_match_first. reflexivity.
  - vm_compute. discriminate.
Defined.

(** And the directory [data], planned as a directory, is kept. *)
Lemma matching_kind_kept_in_scenario :
  ~ In Sample.data [Sample.old_txt; Sample.config_yml].
Proof.
  apply (first_match_of_same_kind_is_kept
           Sample.app_planned Sample.app_remote "/opt/app" (PBool true) []
           [Sample.old_txt; Sample.config_yml] Sample.data
           Sample.planned_data).
  - reflexivity.
  - apply local_match_first. reflexivity.
  - reflexivity.
Defined.

Local Abbreviation sample_plan_run regular found listing refused args :=
  (plan_run Sample.path_dwim_relative Sample.path_exists
            (Sample.S_ISREG regular) (Sample.filetree_run found)
            Sample.template_lookup Sample.loader_get_file_contents
            nat (Sample.execute listing refused) args
            {| world := 0; trace := [] |}).

Local Abbreviation sample_run regular found listing refused args :=
  (run Sample.path_dwim_relative Sample.path_exists
       (Sample.S_ISREG regular) (Sample.filetree_run found)
       Sample.template_lookup Sample.loader_get_file_contents
       nat (Sample.execute listing refused) Sample.output0 args
       {| world := 0; trace := [] |}).

(** The scenario of the specification, run to its end: the listing, the
    two deletes, then the three creates. *)
Example scenario_trace :
  trace nat (snd (sample_run [] Sample.app_found Sample.app_listing ""
                             Sample.app_args))
  = [ Find "/opt/app";
      FileAbsent "/opt/app/old.txt";
      FileAbsent "/opt/app/config.yml";
      FileDirectory "/opt/app" PNone PNone PNone;
      Copy "content of /role/files/app/config.yml" "/opt/app/config.yml"
           PNone PNone PNone;
      FileDirectory "/opt/app/data" PNone PNone PNone ].
Proof. vm_compute. reflexivity. Qed.

(** Nothing removes a duplicate destination after the lookup.  One
    source directory that holds a directory [x] and a template [x.j2]:
    the plan holds two entries, at positions 1 and 2, with the
    destination [/opt/app/x]. *)
Lemma template_and_directory_share_destination :
  exists p e1 e2,
    fst (sample_plan_run [] Sample.clash_found Sample.x_listing ""
                         Sample.app_args) = Ok p /\
    nth_error (to_create p) 1 = Some e1 /\
    nth_error (to_create p) 2 = Some e2 /\
    e_dest e1 = e_dest e2.
Proof.
  eexists. eexists. eexists.
  split; [vm_compute; reflexivity|].
  split; [reflexivity|]. split; reflexivity.
Qed.


(** C3 as stated fails.  In the plan of that source directory the remote
    directory [/opt/app/x] is also the destination of a planned file (the
    template [x.j2]), whose kind differs from it; it is not deleted,
    because the first planned entry at that destination is the
    directory [x]. *)
Lemma later_entry_of_other_kind_does_not_delete :
  exists p q,
    fst (sample_plan_run [] Sample.clash_found Sample.x_listing ""
                         Sample.app_args) = Ok p /\
    In Sample.remote_x (remote_entries p) /\
    In q (to_create p) /\
    pathlib.parse (e_dest q) = re_path Sample.remote_x /\
    e_state q <> remote_state Sample.remote_x /\
    ~ In Sample.remote_x (to_delete p).
Proof.
  eexists. eexists.
  split; [vm_compute; reflexivity|].
  split; [left; reflexivity|].
  split; [right; right; left; reflexivity|].
  split; [reflexivity|].
  split; [vm_compute; discriminate|].
  intros [].
Qed.

(** C4 as stated fails.  With the template [x.j2] given as a source file
    before the directory [b/] that holds a directory [x], the remote
    directory [/opt/app/x] is the destination of a planned directory,
    and it is deleted all the same: the first planned entry at that
    destination is the file. *)
Lemma later_entry_of_same_kind_does_not_keep :
  exists p q,
    fst (sample_plan_run ["/role/files/x.j2"] Sample.b_found Sample.x_listing
                         "" Sample.file_then_directory_args) = Ok p /\
    In q (to_create p) /\
    pathlib.parse (e_dest q) = re_path Sample.remote_x /\
    e_state q = remote_state Sample.remote_x /\
    In Sample.remote_x (to_delete p).
Proof.
  eexists. eexists.
  split; [vm_compute; reflexivity|].
  split; [right; right; left; reflexivity|].
  split; [reflexivity|].
  split; [reflexivity|].
  left. reflexivity.
Qed.

(** C1 on two source directories [a] and [b] that both hold
    [shared.txt].  The lookup, handed the two of them, returns the copy
    of [a] only; it runs once per source directory, so that copy is
    merged twice and planned twice, at positions 1 and 3: the plan has
    two entries with the destination [/opt/app/a/shared.txt]. *)
Lemma shared_file_is_planned_twice :
  exists p,
    fst (sample_plan_run [] [Cases.shared_txt] [] ""
                         Cases.two_directories_args) = Ok p /\
    local_entries p
    = [ directory_root_entry "a"; Cases.shared_txt;
        directory_root_entry "b"; Cases.shared_txt ] /\
    List.map e_dest (to_create p)
    = [ "/opt/app/a"; "/opt/app/a/shared.txt";
        "/opt/app/b"; "/opt/app/a/shared.txt" ] /\
    ~ List.NoDup (List.map e_dest (to_create p)).
Proof.
  eexists. split; [vm_compute; reflexivity|].
  split; [reflexivity|]. split; [reflexivity|].
  intros H. simpl in H.
  inversion H as [|? ? _ H1]. inversion H1 as [|? ? Hn _].
  apply Hn. right. left. reflexivity.
Qed.

(** C8 on two source directories [a] and [b]: the lookup runs once per
    directory over both of them, so [y.txt], found under [b], is emitted
    at position 2, before the entry of [b] itself at position 3; and
    every found entry is emitted twice. *)
Lemma second_directory_follows_its_descendant :
  _get_local_entries Sample.path_dwim_relative Sample.path_exists
                     (Sample.S_ISREG [])
                     (Sample.filetree_run [Sample.a_x; Sample.b_y])
                     [PStr "a"; PStr "b"]
  = Ok [ directory_root_entry "a"; Sample.a_x; Sample.b_y;
         directory_root_entry "b"; Sample.a_x; Sample.b_y ].
Proof. reflexivity. Qed.

(** C6 on the scenario, with the host refusing to delete
    [/opt/app/config.yml]: the run stops there with the host's message;
    the first delete stays applied and no create is executed. *)
Lemma refused_delete_aborts_scenario :
  sample_run [] Sample.app_found Sample.app_listing "/opt/app/config.yml"
             Sample.app_args
  = (Raise (AnsibleError "permission denied"),
     {| world := 3;
        trace := [ Find "/opt/app";
                   FileAbsent "/opt/app/old.txt";
                   FileAbsent "/opt/app/config.yml" ] |}).
Proof.
  eapply eq_trans.
  - eapply (failed_operation_aborts_run
              Sample.path_dwim_relative Sample.path_exists (Sample.S_ISREG [])
              (Sample.filetree_run Sample.app_found)
              Sample.template_lookup Sample.loader_get_file_contents
              nat (Sample.execute Sample.app_listing "/opt/app/config.yml")
              Sample.output0 Sample.app_args {| world := 0; trace := [] |}
              {| world := 1; trace := [Find "/opt/app"] |} _
              [FileAbsent "/opt/app/old.txt"] _
              (FileAbsent "/opt/app/config.yml")).
    + vm_compute. reflexivity.
    + vm_compute. reflexivity.
    + vm_compute. reflexivity.
    + simpl. split; [|exact I]. eexists. split; reflexivity.
    + vm_compute. reflexivity.
    + reflexivity.
    + reflexivity.
  - vm_compute. reflexivity.
Defined.

(** C7 on a task without [src]. *)
Lemma missing_src_fails_before_any_execution :
  invalid_argument_failure
    (fst (sample_run [] Sample.app_found Sample.app_listing ""
                     Sample.no_src_args)) /\
  snd (sample_run [] Sample.app_found Sample.app_listing ""
                  Sample.no_src_args)
  = {| world := 0; trace := [] |}.
Proof.
  apply (invalid_arguments_fail_before_any_execution
           Sample.path_dwim_relative Sample.path_exists (Sample.S_ISREG [])
           (Sample.filetree_run Sample.app_found)
           Sample.template_lookup Sample.loader_get_file_contents
           nat (Sample.execute Sample.app_listing "")
           Sample.output0 Sample.no_src_args {| world := 0; trace := [] |}).
  left. vm_compute. reflexivity.
Defined.

(** C10 on the scenario with [/etc/keep] among the ignore paths. *)
Lemma foreign_ignore_raises_in_scenario :
  sample_run [] Sample.app_found Sample.app_listing ""
             Sample.foreign_ignore_args
  = (Raise ValueError, {| world := 1; trace := [Find "/opt/app"] |}).
Proof.
  eapply eq_trans.
  - eapply (foreign_absolute_ignore_raises_before_mutation
              Sample.path_dwim_relative Sample.path_exists (Sample.S_ISREG [])
              (Sample.filetree_run Sample.app_found)
              Sample.template_lookup Sample.loader_get_file_contents
              nat (Sample.execute Sample.app_listing "")
              Sample.output0 Sample.foreign_ignore_args
              {| world := 0; trace := [] |}
              _ {| pp_root := "/"; pp_parts := ["etc"; "keep"] |} "/opt/app").
    + vm_compute. reflexivity.
    + vm_compute. reflexivity.
    + left. reflexivity.
    + reflexivity.
    + rewrite <- is_relative_to_spec. vm_compute. discriminate.
    + vm_compute. reflexivity.
    + vm_compute. reflexivity.
    + vm_compute. reflexivity.
    + reflexivity.
    + vm_compute. reflexivity.
    + vm_compute. reflexivity.
  - reflexivity.
Defined.

(** C9 on the roots [files/app/] and [files/app] of the specification. *)
Lemma app_root_with_and_without_separator :
  destination_path "/opt/app"
    {| le_root := "files/app/"; le_path := "config.yml";
       le_state := "file"; le_src := Some "files/app/config.yml" |}
  = "/opt/app/config.yml" /\
  destination_path "/opt/app"
    {| le_root := "files/app"; le_path := "config.yml";
       le_state := "file"; le_src := Some "files/app/config.yml" |}
  = "/opt/app/app/config.yml".
Proof.
  split.
  - apply (root_separator_decides_destination "opt/app"
             {| le_root := "files/app/"; le_path := "config.yml";
                le_state := "file"; le_src := Some "files/app/config.yml" |}).
    + reflexivity.
    + intros H. vm_compute in H. discriminate H.
    + reflexivity.
  - apply (root_separator_decides_destination "opt/app"
             {| le_root := "files/app"; le_path := "config.yml";
                le_state := "file"; le_src := Some "files/app/config.yml" |}).
    + reflexivity.
    + intros _. reflexivity.
    + reflexivity.
Defined.

(** ** The further properties on sample data *)

(** Three results, one of each kind, are sorted into the three lists. *)
Lemma three_results_classified :
  exists o,
    _build_output Sample.output0 Cases.three_results = Ok o /\
    o_deleted_entries o = [Cases.absent_result] /\
    o_managed_directories o = [Cases.directory_result] /\
    o_managed_files o = [Cases.file_result] /\
    o_failed o = false /\ o_msg o = None.
Proof.
  eexists. split; [vm_compute; reflexivity|].
  apply (build_output_classifies Sample.output0 _ Cases.three_results).
  vm_compute. reflexivity.
Defined.

(** One of the three reports a change: so does the run. *)
Lemma three_results_changed :
  exists o,
    _build_output Sample.output0 Cases.three_results = Ok o /\
    o_changed o = Some true.
Proof.
  eexists. split; [vm_compute; reflexivity|].
  apply (build_output_changed Sample.output0 _ Cases.three_results).
  vm_compute. reflexivity.
Defined.

(** The diffs of the three results: the list of the directory, then the
    single record of the file. *)
Lemma three_results_diffs :
  exists o,
    _build_output Sample.output0 Cases.three_results = Ok o /\
    o_diff o = Some ["mode"; "owner"; "content"].
Proof.
  eexists. split; [vm_compute; reflexivity|].
  apply (build_output_diffs Sample.output0 _ Cases.three_results).
  vm_compute. reflexivity.
Defined.

Lemma listed_old_txt_rebuilt :
  re_path (remote_entry_of
             {| f_path := "/opt/app/old.txt"; f_isdir := false; f_isreg := true |})
  = pathlib.parse "/opt/app/old.txt".
Proof.
  apply (rebuilt_path_is_the_listed_path
           {| f_path := "/opt/app/old.txt"; f_isdir := false; f_isreg := true |}).
  reflexivity.
Defined.

Lemma listed_old_txt_deleted_by_name :
  delete_call (remote_entry_of
                 {| f_path := "/opt/app/old.txt"; f_isdir := false;
                    f_isreg := true |})
  = FileAbsent "/opt/app/old.txt".
Proof.
  apply (delete_names_the_listed_path
           {| f_path := "/opt/app/old.txt"; f_isdir := false; f_isreg := true |}
           "opt/app/old.txt").
  - reflexivity.
  - reflexivity.
Defined.

(** The stray file [cache/tmp] under an ignored absolute path. *)
Lemma ignored_cache_in_scenario :
  exists to_delete,
    _get_entries_to_delete Sample.app_planned Cases.app_with_cache "/opt/app"
                           (PBool true) Cases.app_ignores = Ok to_delete /\
    (In Cases.cache_tmp to_delete <->
     forall i, In i Cases.app_ignores ->
       ~ exempts (re_path Cases.cache_tmp)
                 {| pp_root := ""; pp_parts := ["cache"; "tmp"] |} i).
Proof.
  apply (unmatched_deleted_iff_not_exempt
           Sample.app_planned Cases.app_with_cache "/opt/app" (PBool true)
           Cases.app_ignores Cases.cache_tmp
           {| pp_root := ""; pp_parts := ["cache"; "tmp"] |}).
  - intros i Hi Habs. simpl in Hi.
    destruct Hi as [<-|[<-|[]]]; [discriminate Habs|].
    split; [reflexivity|]. exists ["cache"]. reflexivity.
  - listed.
  - simpl. auto 10.
  - reflexivity.
  - intros p Hp. simpl in Hp.
    repeat (destruct Hp as [<-|Hp]; [vm_compute; discriminate|]).
    destruct Hp.
  - reflexivity.
Defined.

(** Without [exclusive] the only delete of the scenario is the directory
    in the place of the planned file. *)
Lemma non_exclusive_scenario_deletes_mismatch :
  In Sample.config_yml Sample.app_remote /\
  exists p, first_match Sample.app_planned (re_path Sample.config_yml) p /\
            e_state p <> remote_state Sample.config_yml.
Proof.
  apply (non_exclusive_deletes_only_mismatches
           Sample.app_planned Sample.app_remote "/opt/app" (PBool false) []
           [Sample.config_yml] Sample.config_yml).
  - vm_compute. reflexivity.
  - reflexivity.
  - simpl. auto.
Defined.

Lemma planned_site_well_formed :
  e_owner Cases.planned_site = PStr "root" /\
  e_group Cases.planned_site = PStr "root" /\
  ((e_state Cases.planned_site = "file" /\
    e_mode Cases.planned_site = PStr "0644" /\
    resolved Sample.template_lookup Sample.loader_get_file_contents
             Cases.planned_site) \/
   (e_state Cases.planned_site = "directory" /\
    e_mode Cases.planned_site = PStr "0755" /\
    e_src Cases.planned_site = None /\
    e_content Cases.planned_site = None /\
    e_template Cases.planned_site = false)).
Proof.
  eapply (planned_entries_are_well_formed
            Sample.template_lookup Sample.loader_get_file_contents
            (Sample.app_found ++ [Cases.a_link; Cases.a_template])
            "/opt/app" (PStr "root") (PStr "root") (PStr "0644") (PStr "0755")).
  - vm_compute. reflexivity.
  - vm_compute. reflexivity.
  - simpl. auto.
Defined.

Lemma site_template_stripped :
  exists e,
    planned_entry "/opt/app" (PStr "root") (PStr "root") (PStr "0644")
                  (PStr "0755") Cases.a_template = Ok (Some e) /\
    e_dest e = "/opt/app/conf/site.yml" /\
    e_template e = true.
Proof.
  eexists. split; [vm_compute; reflexivity|].
  eapply (template_suffix_is_stripped "opt/app" (PStr "root") (PStr "root")
            (PStr "0644") (PStr "0755") Cases.a_template).
  - reflexivity.
  - reflexivity.
  - intros H. vm_compute in H. discriminate H.
  - vm_compute. reflexivity.
Defined.

(** The template [etc/motd.j2], given as a source: planned at
    [/opt/app/motd]. *)
Lemma motd_template_lands_under_destination :
  planned_entry "/opt/app" (PStr "root") (PStr "root") (PStr "0644")
                (PStr "0755") (file_root_entry "/role/files/etc/motd.j2")
  = Ok (Some {| e_dest := "/opt/app/motd"; e_state := "file";
                e_owner := PStr "root"; e_group := PStr "root";
                e_src := Some "/role/files/etc/motd.j2"; e_template := true;
                e_mode := PStr "0644"; e_content := None |}).
Proof.
  apply (file_source_lands_under_destination "/role/files/etc/motd.j2"
           "opt/app" (PStr "root") (PStr "root") (PStr "0644") (PStr "0755")).
  - reflexivity.
  - reflexivity.
Defined.

Lemma two_files_give_two_entries :
  _get_local_entries Sample.path_dwim_relative Sample.path_exists
    (Sample.S_ISREG ["/role/files/motd"; "/role/files/issue"])
    (Sample.filetree_run Sample.app_found)
    (List.map PStr ["motd"; "issue"])
  = Ok [file_root_entry "/role/files/motd"; file_root_entry "/role/files/issue"].
Proof.
  apply (file_sources_give_one_entry_each
           Sample.path_dwim_relative Sample.path_exists
           (Sample.S_ISREG ["/role/files/motd"; "/role/files/issue"])
           (Sample.filetree_run Sample.app_found) ["motd"; "issue"]).
  intros lp Hin. simpl in Hin.
  destruct Hin as [<-|[<-|[]]]; reflexivity.
Defined.

Lemma two_directories_repeat_the_lookup :
  exists les,
    _get_local_entries Sample.path_dwim_relative Sample.path_exists
      (Sample.S_ISREG []) (Sample.filetree_run [Sample.a_x; Sample.b_y])
      (List.map PStr ["a"; "b"]) = Ok les /\
    les = List.flat_map
            (fun lp => directory_root_entry lp
                       :: Sample.filetree_run [Sample.a_x; Sample.b_y] ["a"; "b"])
            ["a"; "b"] /\
    length les = 2 * 3.
Proof.
  apply (directory_sources_repeat_the_lookup
           Sample.path_dwim_relative Sample.path_exists (Sample.S_ISREG [])
           (Sample.filetree_run [Sample.a_x; Sample.b_y]) ["a"; "b"]).
  intros lp Hin. reflexivity.
Defined.

Lemma two_ignore_paths_parsed :
  _parse_path_list Cases.ignoring_args "exclusive_ignore"
  = Ok [Cases.ignore_keep; Cases.ignore_cache].
Proof.
  apply (parse_path_list_of_strings Cases.ignoring_args "exclusive_ignore"
           ["keep"; "/opt/app/cache"]).
  vm_compute. reflexivity.
Defined.

(** The scenario of the specification runs to its end: its result is
    built from the five answers of the host. *)
Lemma scenario_reports_every_answer :
  exists p,
    fst (sample_plan_run [] Sample.app_found Sample.app_listing ""
                         Sample.app_args) = Ok p /\
    exists rs,
      List.map Ok rs
      = answers nat (Sample.execute Sample.app_listing "") (plan_calls p) 1 /\
      sample_run [] Sample.app_found Sample.app_listing "" Sample.app_args
      = (_build_output Sample.output0 rs,
         state_after nat (Sample.execute Sample.app_listing "") (plan_calls p)
                     {| world := 1; trace := [Find "/opt/app"] |}).
Proof.
  eexists. split; [vm_compute; reflexivity|].
  eapply (successful_run_reports_every_answer
            Sample.path_dwim_relative Sample.path_exists (Sample.S_ISREG [])
            (Sample.filetree_run Sample.app_found)
            Sample.template_lookup Sample.loader_get_file_contents
            nat (Sample.execute Sample.app_listing "") Sample.output0
            Sample.app_args {| world := 0; trace := [] |}
            {| world := 1; trace := [Find "/opt/app"] |}).
  - vm_compute. reflexivity.
  - vm_compute. reflexivity.
  - vm_compute. repeat (split; [eexists; split; reflexivity|]). exact I.
Defined.

(** A delete that fails without a message ends the run with the
    [KeyError] of the key [msg]. *)
Lemma mute_failure_is_a_KeyError :
  run Sample.path_dwim_relative Sample.path_exists (Sample.S_ISREG [])
      (Sample.filetree_run Sample.app_found)
      Sample.template_lookup Sample.loader_get_file_contents
      nat (Cases.execute_mute Sample.app_listing) Sample.output0
      Sample.app_args {| world := 0; trace := [] |}
  = (Raise (KeyError "msg"),
     state_after nat (Cases.execute_mute Sample.app_listing)
                 ([] ++ [FileAbsent "/opt/app/old.txt"])
                 {| world := 1; trace := [Find "/opt/app"] |}) /\
  (forall r,
     fst (Cases.execute_mute Sample.app_listing (FileAbsent "/opt/app/old.txt")
            (host_after nat (Cases.execute_mute Sample.app_listing) [] 1))
     = Ok r ->
     KeyError "msg" = match r_msg r with
                      | Some msg => AnsibleError msg
                      | None => KeyError "msg"
                      end).
Proof.
  eapply (aborting_execution_ends_the_run
            Sample.path_dwim_relative Sample.path_exists (Sample.S_ISREG [])
            (Sample.filetree_run Sample.app_found)
            Sample.template_lookup Sample.loader_get_file_contents
            nat (Cases.execute_mute Sample.app_listing) Sample.output0
            Sample.app_args {| world := 0; trace := [] |}
            {| world := 1; trace := [Find "/opt/app"] |} _
            [] _ (FileAbsent "/opt/app/old.txt") (KeyError "msg")).
  - vm_compute. reflexivity.
  - vm_compute. reflexivity.
  - vm_compute. reflexivity.
  - exact I.
  - right. eexists. split; [reflexivity|]. split; reflexivity.
Defined.

(** A source file that the loader cannot find: the run fails after the
    listing, with the plugin's error. *)
Lemma unreadable_source_fails_after_listing :
  run Sample.path_dwim_relative Sample.path_exists (Sample.S_ISREG [])
      (Sample.filetree_run Sample.app_found)
      Sample.template_lookup Cases.loader_not_found
      nat (Sample.execute Sample.app_listing "") Sample.output0
      Sample.app_args {| world := 0; trace := [] |}
  = (Raise (AnsibleError
              "could not locate file in lookup: /role/files/app/config.yml"),
     {| world := 1; trace := [Find "/opt/app"] |}) /\
  ({| world := 1; trace := [Find "/opt/app"] |} = {| world := 0; trace := [] |} \/
   exists d,
     {| world := 1; trace := [Find "/opt/app"] |}
     = state_after nat (Sample.execute Sample.app_listing "") [Find d]
                   {| world := 0; trace := [] |}).
Proof.
  apply (planning_failure_leaves_destination_alone
           Sample.path_dwim_relative Sample.path_exists (Sample.S_ISREG [])
           (Sample.filetree_run Sample.app_found)
           Sample.template_lookup Cases.loader_not_found
           nat (Sample.execute Sample.app_listing "") Sample.output0
           Sample.app_args {| world := 0; trace := [] |}
           {| world := 1; trace := [Find "/opt/app"] |}).
  - vm_compute. reflexivity.
  - vm_compute. reflexivity.
Defined.

(** A destination that cannot be listed: the reported failure is lost
    and the run ends with the [KeyError] of the key [files]. *)
Lemma unlisted_destination_is_a_KeyError :
  run Sample.path_dwim_relative Sample.path_exists (Sample.S_ISREG [])
      (Sample.filetree_run Sample.app_found)
      Sample.template_lookup Sample.loader_get_file_contents
      nat Cases.execute_no_listing Sample.output0
      Sample.app_args {| world := 0; trace := [] |}
  = (Raise (KeyError "files"),
     state_after nat Cases.execute_no_listing [Find "/opt/app"]
                 {| world := 0; trace := [] |}).
Proof.
  eapply (listing_without_files_is_a_KeyError
            Sample.path_dwim_relative Sample.path_exists (Sample.S_ISREG [])
            (Sample.filetree_run Sample.app_found)
            Sample.template_lookup Sample.loader_get_file_contents
            nat Cases.execute_no_listing Sample.output0
            Sample.app_args {| world := 0; trace := [] |}).
  - vm_compute. reflexivity.
  - vm_compute. reflexivity.
  - vm_compute. reflexivity.
  - vm_compute. reflexivity.
  - vm_compute. reflexivity.
  - reflexivity.
Defined.

Lemma unreadable_config_fails_the_contents :
  _set_file_contents Sample.template_lookup Cases.loader_not_found
    ([Sample.planned_root] ++ Cases.config_unresolved :: [Sample.planned_data])
  = Raise (AnsibleError
             ("could not locate file in lookup: "
              +:+ "/role/files/app/config.yml")).
Proof.
  eapply (unreadable_file_fails_the_contents
            Sample.template_lookup Cases.loader_not_found
            [Sample.planned_root] _ [Sample.planned_data]
            Cases.config_unresolved "/role/files/app/config.yml").
  - vm_compute. reflexivity.
  - reflexivity.
  - reflexivity.
  - reflexivity.
  - reflexivity.
Defined.
